(** * AllocKit: the page provider (allockit_page.h) and the allocator
      interface macros (allockit.h)

    The page provider talks to the operating system through six
    primitives (sysconf, GetSystemInfo, mmap, munmap, VirtualAlloc,
    VirtualFree).  The C functions are embedded as programs of a small
    free monad over those primitives: a program is a tree whose nodes are
    OS calls and whose leaves are results.  Running a program against an
    OS (a function from the calls made so far and the present call to the
    value the OS returns) yields the result together with the list of OS
    calls issued, so that "no OS call is performed" is a statement about
    that list.

    Integers of type [size_t] and pointers are values of [Z] in the range
    [0 .. SIZE_MAX]; the width of [size_t] is a parameter of the build. *)

From Stdlib Require Import ZArith List String Bool Lia.
Import ListNotations.
Set Warnings "-register-all".
Local Open Scope Z_scope.

(** ** The build: platform and width of [size_t] *)

(** allockit_page.h, lines 41-49: the preprocessor selects one of two
    platforms; anything else does not compile. *)
Inductive Platform : Type :=
| ALLOCKIT_PAGE_PLATFORM_WINDOWS
| ALLOCKIT_PAGE_PLATFORM_LINUX.

(** ** Operating-system primitives *)

Inductive os_call : Type :=
| sysconf (name : Z)
| GetSystemInfo
| mmap (addr length prot flags fd offset : Z)
| munmap (addr length : Z)
| VirtualAlloc (lpAddress dwSize flAllocationType flProtect : Z)
| VirtualFree (lpAddress dwSize dwFreeType : Z).

(** Constants of the system headers (<sys/mman.h>, <unistd.h> on Linux,
    <memoryapi.h> on Windows). *)
Definition NULL : Z := 0.
Definition PROT_READ : Z := 1.
Definition PROT_WRITE : Z := 2.
Definition MAP_PRIVATE : Z := 2.
Definition MAP_FIXED : Z := 16.
Definition MAP_ANONYMOUS : Z := 32.
Definition _SC_PAGESIZE : Z := 30.
Definition MEM_COMMIT : Z := 4096.
Definition MEM_RESERVE : Z := 8192.
Definition MEM_RELEASE : Z := 32768.
Definition PAGE_READWRITE : Z := 4.

(** ** Programs over the OS primitives *)

Inductive prog (A : Type) : Type :=
| Ret (a : A)
| Sys (c : os_call) (k : Z -> prog A).
Arguments Ret {A} a.
Arguments Sys {A} c k.

Fixpoint bind {A B : Type} (p : prog A) (f : A -> prog B) : prog B :=
  match p with
  | Ret a => f a
  | Sys c k => Sys c (fun r => bind (k r) f)
  end.

Notation "x <- p ;; q" := (bind p (fun x => q))
  (at level 61, p at next level, right associativity).

(** An operating system answers a call knowing the calls made before it
    (most recent first). *)
Definition os : Type := list os_call -> os_call -> Z.

(** [run o h p] runs [p] after the calls [h]; it returns the result of
    [p] and the calls made so far, the new ones in front. *)
Fixpoint run {A : Type} (o : os) (h : list os_call) (p : prog A)
  : A * list os_call :=
  match p with
  | Ret a => (a, h)
  | Sys c k => run o (c :: h) (k (o h c))
  end.

(** ** The page chunk *)

(** allockit_page.h, lines 25-28. *)
Record AkPageChunk : Type := mkChunk { start : Z; count : Z }.

Module Page.
Section Build.

(** Width in bits of [size_t] (and of a pointer). *)
Variable size_bits : positive.
Variable platform : Platform.

(** allockit_page.h, line 66: [(size_t)(-1)]. *)
Definition SIZE_MAX : Z := 2 ^ Z.pos size_bits - 1.

(** Conversion to [size_t], and the wrap-around of its arithmetic. *)
Definition to_size_t (z : Z) : Z := z mod (SIZE_MAX + 1).

(** [MAP_FAILED] is [(void * ) -1]. *)
Definition MAP_FAILED : Z := to_size_t (-1).

(** [AkPageChunk res = {0};] *)
Definition chunk0 : AkPageChunk := mkChunk NULL 0.

(** allockit_page.h, lines 69-85. *)
Definition ak_page_getPageSize : prog Z :=
  match platform with
  | ALLOCKIT_PAGE_PLATFORM_WINDOWS =>
      Sys GetSystemInfo (fun dwPageSize =>
      Ret (to_size_t dwPageSize))
  | ALLOCKIT_PAGE_PLATFORM_LINUX =>
      Sys (sysconf _SC_PAGESIZE) (fun m_page_size =>
      if m_page_size <=? 0 then Ret 0
      else Ret (to_size_t m_page_size))
  end.

(** allockit_page.h, lines 87-117. *)
Definition ak_page_requestPages (page_size addr count : Z)
  : prog AkPageChunk :=
  let res := chunk0 in
  if negb (count =? 0) && (page_size >? SIZE_MAX / count) then Ret res
  else
    let length := to_size_t (page_size * count) in
    match platform with
    | ALLOCKIT_PAGE_PLATFORM_WINDOWS =>
        Sys (VirtualAlloc addr length
               (Z.lor MEM_COMMIT MEM_RESERVE) PAGE_READWRITE)
          (fun m_addr => Ret (mkChunk m_addr count))
    | ALLOCKIT_PAGE_PLATFORM_LINUX =>
        let flags := Z.lor MAP_ANONYMOUS MAP_PRIVATE in
        let flags := if negb (addr =? NULL) then Z.lor flags MAP_FIXED
                     else flags in
        Sys (mmap addr length (Z.lor PROT_READ PROT_WRITE) flags (-1) 0)
          (fun m_addr =>
             if m_addr =? MAP_FAILED then Ret res
             else Ret (mkChunk m_addr count))
    end.

(** allockit_page.h, lines 119-137.  The chunk is passed by reference:
    the function returns its [int] result and the chunk as it is left. *)
Definition ak_page_returnPages (page_size : Z) (pages : AkPageChunk)
  : prog (Z * AkPageChunk) :=
  res <- match platform with
         | ALLOCKIT_PAGE_PLATFORM_WINDOWS =>
             Sys (VirtualFree (start pages) 0 MEM_RELEASE) (fun r => Ret r)
         | ALLOCKIT_PAGE_PLATFORM_LINUX =>
             let length := to_size_t (page_size * count pages) in
             (* munmap returns -1 on failure, 0 on success *)
             Sys (munmap (start pages) length) (fun r => Ret (r + 1))
         end ;;
  if negb (res =? 0)
  then Ret (res, mkChunk NULL (count pages))
  else Ret (res, pages).

End Build.
End Page.

(** ** What is assumed of the operating system *)

Module OsContract.
Section Build.

Variable size_bits : positive.

(** A value of type [size_t]. *)
Definition is_size_t (z : Z) : Prop := 0 <= z <= Page.SIZE_MAX size_bits.

(** POSIX [mmap]: it fails (returning [MAP_FAILED]) or it maps a
    non-empty range, at [addr] itself under [MAP_FIXED] and never at
    address 0 otherwise ("If len is zero, mmap() shall fail"; "it never
    places a mapping at address 0"). *)
Definition mmap_posix (o : os) : Prop :=
  forall h addr length prot flags fd offset,
    let r := o h (mmap addr length prot flags fd offset) in
    r = Page.MAP_FAILED size_bits \/
    (length <> 0 /\
     (Z.land flags MAP_FIXED <> 0 -> r = addr) /\
     (Z.land flags MAP_FIXED = 0 -> r <> NULL)).

(** The query behind [ak_page_getPageSize]. *)
Definition page_query (platform : Platform) : os_call :=
  match platform with
  | ALLOCKIT_PAGE_PLATFORM_WINDOWS => GetSystemInfo
  | ALLOCKIT_PAGE_PLATFORM_LINUX => sysconf _SC_PAGESIZE
  end.

(** [sysconf] reports failure by returning -1; [GetSystemInfo] returns
    nothing and cannot fail. *)
Definition query_failed (platform : Platform) (r : Z) : Prop :=
  match platform with
  | ALLOCKIT_PAGE_PLATFORM_WINDOWS => False
  | ALLOCKIT_PAGE_PLATFORM_LINUX => r = -1
  end.

(** The answers a platform can give to the page-size query: -1 or a
    positive [ssize_t] from [sysconf], a positive [dwPageSize] that fits
    [size_t] from [GetSystemInfo]. *)
Definition query_answer (platform : Platform) (r : Z) : Prop :=
  match platform with
  | ALLOCKIT_PAGE_PLATFORM_WINDOWS => 0 < r <= Page.SIZE_MAX size_bits
  | ALLOCKIT_PAGE_PLATFORM_LINUX =>
      r = -1 \/ 0 < r <= Page.SIZE_MAX size_bits / 2
  end.

Definition page_query_wf (platform : Platform) (o : os) : Prop :=
  forall h, query_answer platform (o h (page_query platform)).

(** The page size does not change while the process runs. *)
Definition page_size_stable (platform : Platform) (o : os) : Prop :=
  forall h h', o h (page_query platform) = o h' (page_query platform).

(** The release primitive of each platform, as [ak_page_returnPages]
    calls it. *)
Definition release_call (platform : Platform) (page_size : Z)
    (pages : AkPageChunk) : os_call :=
  match platform with
  | ALLOCKIT_PAGE_PLATFORM_WINDOWS =>
      VirtualFree (start pages) 0 MEM_RELEASE
  | ALLOCKIT_PAGE_PLATFORM_LINUX =>
      munmap (start pages)
        (Page.to_size_t size_bits (page_size * count pages))
  end.

(** What a request that passes the overflow guard asks of the OS. *)
Definition reserve_call (platform : Platform)
    (page_size addr count : Z) : os_call :=
  match platform with
  | ALLOCKIT_PAGE_PLATFORM_WINDOWS =>
      VirtualAlloc addr (page_size * count)
        (Z.lor MEM_COMMIT MEM_RESERVE) PAGE_READWRITE
  | ALLOCKIT_PAGE_PLATFORM_LINUX =>
      mmap addr (page_size * count) (Z.lor PROT_READ PROT_WRITE)
        (if addr =? NULL then Z.lor MAP_ANONYMOUS MAP_PRIVATE
         else Z.lor (Z.lor MAP_ANONYMOUS MAP_PRIVATE) MAP_FIXED)
        (-1) 0
  end.

(** [VirtualAlloc] returns [NULL] when it fails, and it fails for a
    region of size 0. *)
Definition VirtualAlloc_documented (o : os) : Prop :=
  forall h lpAddress dwSize flAllocationType flProtect,
    dwSize = 0 ->
    o h (VirtualAlloc lpAddress dwSize flAllocationType flProtect) = NULL.

(** What is assumed of the reservation primitive of each platform. *)
Definition reserve_contract (platform : Platform) (o : os) : Prop :=
  match platform with
  | ALLOCKIT_PAGE_PLATFORM_WINDOWS => VirtualAlloc_documented o
  | ALLOCKIT_PAGE_PLATFORM_LINUX => mmap_posix o
  end.

(** Whether the release primitive reported success. *)
Definition release_succeeded (platform : Platform) (r : Z) : Prop :=
  match platform with
  | ALLOCKIT_PAGE_PLATFORM_WINDOWS => r <> 0
  | ALLOCKIT_PAGE_PLATFORM_LINUX => r <> -1
  end.

End Build.

(** The invariant the data model states for page chunks. *)
Definition chunk_inv (c : AkPageChunk) : Prop :=
start c = NULL <-> count c = 0.

End OsContract.

(** ** Two concrete operating systems, on a 64-bit build *)

Module Sim.

Definition bits : positive := 64.

(** An OS with memory to spare: anonymous mappings without a fixed
    address land at [base], fixed ones where asked; zero-length
    requests are refused. *)
Definition base : Z := 0x7f0000000000.

Definition generous : os := fun _ c =>
  match c with
  | sysconf name => if name =? _SC_PAGESIZE then 4096 else -1
  | GetSystemInfo => 4096
  | mmap addr length _ flags _ _ =>
      if length =? 0 then Page.MAP_FAILED bits
      else if Z.land flags MAP_FIXED =? 0 then base else addr
  | munmap _ length => if length =? 0 then -1 else 0
  | VirtualAlloc lpAddress dwSize _ _ =>
      if dwSize =? 0 then NULL
      else if lpAddress =? NULL then base else lpAddress
  | VirtualFree lpAddress _ _ => if lpAddress =? NULL then 0 else 1
  end.

(** An OS that refuses everything. *)
Definition exhausted : os := fun _ c =>
  match c with
  | sysconf _ => -1
  | GetSystemInfo => 4096
  | mmap _ _ _ _ _ _ => Page.MAP_FAILED bits
  | munmap _ _ => -1
  | VirtualAlloc _ _ _ _ => NULL
  | VirtualFree _ _ _ => 0
  end.

End Sim.

(** ** The allocator interface (allockit.h)

  The three entry points are preprocessor macros.  Their replacement
  lists are kept as syntax trees; [expand] is macro replacement and
  [invocation] reads off an expanded call which function is invoked and
  with which argument values. *)

Module Interface.

Local Open Scope string_scope.

Inductive expr : Type :=
| Id (x : string)
| Num (z : Z)
| Arrow (e : expr) (field : string)
| Call (f : expr) (args : list expr).

(** A [#define]: [m_params] is [None] for an object-like macro. *)
Record macro : Type := mkMacro {
  m_name : string;
  m_params : option (list string);
  m_body : expr
}.

(** allockit.h, lines 205-236, in the order of the file. *)
Definition allockit_h : list macro := [
  mkMacro "ALLOCKIT_ALIGNOF" None (Id "alignof");
  mkMacro "ALLOCKIT_SIZE_T" None (Id "size_t");
  mkMacro "ak_alloc" (Some ["pAlloc"; "Size"; "Align"; "Count"])
    (Call (Arrow (Id "pAlloc") "alloc")
       [Id "pAlloc"; Id "Size"; Id "Align"; Id "Count"]);
  mkMacro "ak_alloc" (Some ["pAlloc"; "T"; "Count"])
    (Call (Id "ak_alloc")
       [Id "pAlloc"; Call (Id "sizeof") [Id "T"];
        Call (Id "ALLOCKIT_ALIGNOF") [Id "T"]; Id "Count"]);
  mkMacro "ak_resize" (Some ["pAlloc"; "Addr"; "Size"; "Align"; "Count"])
    (Call (Arrow (Id "Alloc") "resize")
       [Id "pAlloc"; Id "Addr"; Id "Size"; Id "Align"; Id "Count"]);
  mkMacro "ak_resize" (Some ["pAlloc"; "Addr"; "T"; "Count"])
    (Call (Id "ak_resize")
       [Id "pAlloc"; Id "Addr"; Call (Id "sizeof") [Id "T"];
        Call (Id "ALLOCKIT_ALIGNOF") [Id "T"]; Id "Count"]);
  mkMacro "ak_free" (Some ["pAlloc"; "Addr"])
    (Call (Arrow (Id "Alloc") "free") [Id "pAlloc"; Id "Addr"])
].

(** The definition in force after the whole header: a later [#define]
    of a name replaces the earlier one. *)
Fixpoint defined (ms : list macro) (x : string) : option macro :=
  match ms with
  | [] => None
  | m :: ms' =>
      match defined ms' x with
      | Some m' => Some m'
      | None => if String.eqb (m_name m) x then Some m else None
      end
  end.

Fixpoint lookup {A : Type} (x : string) (l : list (string * A)) : option A :=
  match l with
  | [] => None
  | (y, a) :: l' => if String.eqb x y then Some a else lookup x l'
  end.

(** Parameters replaced by arguments. *)
Fixpoint subst (s : list (string * expr)) (e : expr) : expr :=
  match e with
  | Id x => match lookup x s with Some a => a | None => Id x end
  | Num z => Num z
  | Arrow e' f => Arrow (subst s e') f
  | Call f args => Call (subst s f) (map (subst s) args)
  end.

Fixpoint member (x : string) (l : list string) : bool :=
  match l with
  | [] => false
  | y :: l' => String.eqb x y || member x l'
  end.

Fixpoint sequence {A : Type} (l : list (option A)) : option (list A) :=
  match l with
  | [] => Some []
  | None :: _ => None
  | Some a :: l' =>
      match sequence l' with Some r => Some (a :: r) | None => None end
  end.

(** Macro replacement.  The arguments of a function-like macro are
    replaced first, then the replacement list is rescanned with the
    macro's own name no longer replaced ([hidden]).  A function-like
    macro name that is not followed by an argument list is left alone;
    the wrong number of arguments is an error ([None]).  [fuel] bounds
    the depth of rescanning. *)
Fixpoint expand (fuel : nat) (ms : list macro) (hidden : list string)
    (e : expr) : option expr :=
  match fuel with
  | O => None
  | S n =>
      let plain f args :=
        match expand n ms hidden f,
              sequence (map (expand n ms hidden) args) with
        | Some f', Some args' => Some (Call f' args')
        | _, _ => None
        end in
      match e with
      | Num z => Some (Num z)
      | Id x =>
          match defined ms x with
          | Some (mkMacro _ None body) =>
              if member x hidden then Some (Id x)
              else expand n ms (x :: hidden) body
          | _ => Some (Id x)
          end
      | Arrow e' f =>
          match expand n ms hidden e' with
          | Some e'' => Some (Arrow e'' f)
          | None => None
          end
      | Call (Id x) args =>
          match defined ms x with
          | Some (mkMacro _ (Some params) body) =>
              if member x hidden then plain (Id x) args
              else if Nat.eqb (List.length params) (List.length args) then
                match sequence (map (expand n ms hidden) args) with
                | Some args' =>
                    expand n ms (x :: hidden)
                      (subst (combine params args') body)
                | None => None
                end
              else None
          | _ => plain (Id x) args
          end
      | Call f args => plain f args
      end
  end.

Definition preprocess (e : expr) : option expr :=
  expand 8 allockit_h [] e.

(** allockit.h, lines 215-223: the three capabilities, as the addresses
    of the functions bound to the instance. *)
Record AkAlloc : Type := mkAkAlloc { alloc : Z; resize : Z; free : Z }.

(** What the place of a macro invocation has in scope: the values of
    the identifiers visible there (variables, and functions by their
    address), the allocator instances in memory, and the size and
    alignment of the named types. *)
Record scope : Type := mkScope {
  ident : list (string * Z);
  instance : list (Z * AkAlloc);
  type_info : list (string * (Z * Z))
}.

Fixpoint deref (p : Z) (l : list (Z * AkAlloc)) : option AkAlloc :=
  match l with
  | [] => None
  | (q, a) :: l' => if Z.eqb p q then Some a else deref p l'
  end.

Definition field_of (a : AkAlloc) (f : string) : option Z :=
  if String.eqb f "alloc" then Some (alloc a)
  else if String.eqb f "resize" then Some (resize a)
  else if String.eqb f "free" then Some (free a)
  else None.

(** The value of an argument or callee expression; [None] where the
    expression does not compile (an identifier that is not declared, a
    member that does not exist). *)
Fixpoint eval (s : scope) (e : expr) : option Z :=
  match e with
  | Id x => lookup x (ident s)
  | Num z => Some z
  | Arrow e' f =>
      match eval s e' with
      | Some p =>
          match deref p (instance s) with
          | Some a => field_of a f
          | None => None
          end
      | None => None
      end
  | Call (Id op) [Id T] =>
      match lookup T (type_info s) with
      | Some (size, align) =>
          if String.eqb op "sizeof" then Some size
          else if String.eqb op "alignof" then Some align
          else None
      | None => None
      end
  | Call _ _ => None
  end.

(** The function a call expression invokes and the values it passes. *)
Definition invocation (s : scope) (e : expr) : option (Z * list Z) :=
  match e with
  | Call f args =>
      match eval s f, sequence (map (eval s) args) with
      | Some fn, Some vs => Some (fn, vs)
      | _, _ => None
      end
  | _ => None
  end.

(** What a use of an entry point does at a place with scope [s]. *)
Definition dispatch (s : scope) (e : expr) : option (Z * list Z) :=
  match preprocess e with
  | Some e' => invocation s e'
  | None => None
  end.

(** The three entry points as a caller writes them. *)
Definition ak_alloc (pAlloc T Count : expr) : expr :=
  Call (Id "ak_alloc") [pAlloc; T; Count].
Definition ak_resize (pAlloc Addr T Count : expr) : expr :=
  Call (Id "ak_resize") [pAlloc; Addr; T; Count].
Definition ak_free (pAlloc Addr : expr) : expr :=
  Call (Id "ak_free") [pAlloc; Addr].

(** A caller with two allocators in scope: [my_allocator] at address
    1000 and [Alloc] at address 2000, each with its own three
    functions, and a block [heap_list] at 5000. *)
Definition two_allocators : scope := mkScope
  [("my_allocator", 1000); ("Alloc", 2000); ("heap_list", 5000)]
  [(1000, mkAkAlloc 11 12 13); (2000, mkAkAlloc 21 22 23)]
  [("int", (4, 4))].

(** A caller with one allocator, named as in the header's own usage
    notes. *)
Definition one_allocator : scope := mkScope
  [("my_allocator", 1000); ("heap_list", 5000)]
  [(1000, mkAkAlloc 11 12 13)]
  [("int", (4, 4))].

End Interface.

(** ** Including allockit_page.h (lines 13-49)

    What an inclusion of the header puts into the translation unit
    depends on the macros defined where it is included.  The state keeps
    the macros that the conditionals of the header test. *)

Module Inclusion.

Local Open Scope string_scope.

(** The macros defined at a point of the translation unit, the most
    recent definition first; the replacement is an integer, or [None]
    where it is empty. *)
Definition macros : Type := list (string * option Z).

(** [defined(x)], [#ifdef x]. *)
Definition is_defined (m : macros) (x : string) : bool :=
  match Interface.lookup x m with
  | Some _ => true
  | None => false
  end.

(** The value of the identifier [x] as the expression of an [#if]: 0
    when it is not a macro; no value, which is an error, when its
    replacement is empty. *)
Definition if_value (m : macros) (x : string) : option Z :=
  match Interface.lookup x m with
  | Some (Some v) => Some v
  | Some None => None
  | None => Some 0
  end.

(** [#define x] *)
Definition define (x : string) (m : macros) : macros := (x, None) :: m.

(** [#undef x] *)
Fixpoint undef (x : string) (m : macros) : macros :=
  match m with
  | [] => []
  | (y, v) :: m' =>
      if String.eqb x y then undef x m' else (y, v) :: undef x m'
  end.

(** The replacement of [AKDEF] (lines 13-18). *)
Inductive linkage : Type := AKDEF_static | AKDEF_extern.

(** What an inclusion emits: the declarations of lines 25-32 with their
    [AKDEF], and the function definitions of lines 69-137 with the
    platform their bodies are compiled for. *)
Inductive emitted : Type :=
| Declarations (akdef : linkage)
| Implementation (platform : Platform).

(** Lines 41-49.  [None] is a build that stops, on an [#error] or on an
    [#elif] without a value. *)
Definition select_platform (m : macros) : option macros :=
  if is_defined m "WIN32" || is_defined m "_WIN32"
     || is_defined m "__WIN32__" || is_defined m "__NT__"
  then Some (define "ALLOCKIT_PAGE_PLATFORM_WINDOWS" m)
  else
    match if_value m "__APPLE__" with
    | None => None
    | Some apple =>
        if negb (Z.eqb apple 0) then None
        else
          match if_value m "__linux" with
          | None => None
          | Some linux =>
              if negb (Z.eqb linux 0)
              then Some (define "ALLOCKIT_PAGE_PLATFORM_LINUX" m)
              else None
          end
    end.

(** The branch of [#ifdef ALLOCKIT_PAGE_PLATFORM_WINDOWS ... #elif
    defined(ALLOCKIT_PAGE_PLATFORM_LINUX)] that the three function bodies
    take. *)
Definition body_platform (m : macros) : option Platform :=
  if is_defined m "ALLOCKIT_PAGE_PLATFORM_WINDOWS"
  then Some ALLOCKIT_PAGE_PLATFORM_WINDOWS
  else if is_defined m "ALLOCKIT_PAGE_PLATFORM_LINUX"
  then Some ALLOCKIT_PAGE_PLATFORM_LINUX
  else None.

(** One [#include "allockit_page.h"]: the macros afterwards and what was
    emitted, or [None] when the build stops. *)
Definition include_allockit_page_h (m : macros)
  : option (macros * list emitted) :=
  let static := is_defined m "ALLOCKIT_PAGE_STATIC" in
  let m1 := if static then define "ALLOCKIT_PAGE_IMPL" m else m in
  let akdef := if static then AKDEF_static else AKDEF_extern in
  let '(m2, decls) :=
    if is_defined m1 "ALLOCKIT_PAGE_H_DEFS" then (m1, [])
    else (define "ALLOCKIT_PAGE_H_DEFS" m1, [Declarations akdef]) in
  let m3 := undef "AKDEF" m2 in
  if is_defined m3 "ALLOCKIT_PAGE_IMPL"
     && negb (is_defined m3 "ALLOCKIT_PAGE_H_IMPL")
  then
    match select_platform (define "ALLOCKIT_PAGE_H_IMPL" m3) with
    | Some m4 =>
        match body_platform m4 with
        | Some p => Some (m4, (decls ++ [Implementation p])%list)
        | None => None
        end
    | None => None
    end
  else Some (m3, decls).

(** A translation unit, as far as the header is concerned: definitions
    of macros by the user and inclusions of the header. *)
Inductive directive : Type :=
| UserDefine (x : string) (v : option Z)
| Include.

Fixpoint translate (m : macros) (ds : list directive)
  : option (macros * list emitted) :=
  match ds with
  | [] => Some (m, [])
  | UserDefine x v :: ds' => translate ((x, v) :: m) ds'
  | Include :: ds' =>
      match include_allockit_page_h m with
      | Some (m', out) =>
          match translate m' ds' with
          | Some (m'', out') => Some (m'', (out ++ out')%list)
          | None => None
          end
      | None => None
      end
  end.

Definition is_declarations (e : emitted) : bool :=
  match e with Declarations _ => true | Implementation _ => false end.

Definition is_implementation (e : emitted) : bool :=
  match e with Declarations _ => false | Implementation _ => true end.

(** One of the macros that announce Windows is defined. *)
Definition announces_windows (m : macros) : bool :=
  is_defined m "WIN32" || is_defined m "_WIN32"
  || is_defined m "__WIN32__" || is_defined m "__NT__".

(** The compiler targets [p]: a Windows macro is defined; or none is,
    [__APPLE__] is 0 or not defined, [__linux] has a nonzero value, and
    the user has not defined [ALLOCKIT_PAGE_PLATFORM_WINDOWS]. *)
Definition targets (m : macros) (p : Platform) : Prop :=
  match p with
  | ALLOCKIT_PAGE_PLATFORM_WINDOWS => announces_windows m = true
  | ALLOCKIT_PAGE_PLATFORM_LINUX =>
      announces_windows m = false
      /\ if_value m "__APPLE__" = Some 0
      /\ (exists v, if_value m "__linux" = Some v /\ v <> 0)
      /\ is_defined m "ALLOCKIT_PAGE_PLATFORM_WINDOWS" = false
  end.

(** The macros a compiler for 64-bit Linux and one for Windows
    predefine, among those the header tests. *)
Definition linux_gcc : macros := [("__linux", Some 1); ("__linux__", Some 1)].
Definition windows_msvc : macros := [("_WIN32", Some 1); ("_WIN64", Some 1)].

End Inclusion.

(** * Properties of the page provider *)

Module PageFacts.
Import Page OsContract.

Section Arithmetic.

Variable size_bits : positive.

Lemma SIZE_MAX_pos : 0 < SIZE_MAX size_bits.
Proof.
  unfold SIZE_MAX.
  assert (2 ^ 1 <= 2 ^ Z.pos size_bits) by (apply Z.pow_le_mono_r; lia).
  change (2 ^ 1) with 2 in *. lia.
Qed.

Lemma to_size_t_id z : is_size_t size_bits z -> to_size_t size_bits z = z.
Proof.
  unfold is_size_t, to_size_t. intros Hz. apply Z.mod_small. lia.
Qed.

Lemma to_size_t_range z : is_size_t size_bits (to_size_t size_bits z).
Proof.
  unfold is_size_t, to_size_t. pose proof SIZE_MAX_pos.
  pose proof (Z.mod_pos_bound z (SIZE_MAX size_bits + 1)). lia.
Qed.

Lemma MAP_FAILED_is_SIZE_MAX : MAP_FAILED size_bits = SIZE_MAX size_bits.
Proof.
  unfold MAP_FAILED, to_size_t. pose proof SIZE_MAX_pos.
  symmetry. apply (Z.mod_unique_pos _ _ (-1)); lia.
Qed.

(** The guard of [ak_page_requestPages] is true exactly when the product
    does not fit [size_t]. *)
Lemma overflow_guard page_size count :
  0 <= page_size -> 0 <= count ->
  negb (count =? 0) && (page_size >? SIZE_MAX size_bits / count) = true
  <-> SIZE_MAX size_bits < page_size * count.
Proof.
  intros Hp Hc. pose proof SIZE_MAX_pos as HM.
  rewrite andb_true_iff, negb_true_iff, Z.eqb_neq, Z.gtb_ltb, Z.ltb_lt.
  split.
  - intros [Hne Hlt].
    assert (0 < count) as Hpos by lia.
    destruct (Z.le_gt_cases (page_size * count) (SIZE_MAX size_bits))
      as [Hle | Hgt]; [exfalso | exact Hgt].
    assert (page_size <= SIZE_MAX size_bits / count).
    { apply Z.div_le_lower_bound; lia. }
    lia.
  - intros Hov.
    assert (count <> 0) as Hne by (intros ->; lia).
    split; [exact Hne |].
    apply Z.div_lt_upper_bound; lia.
Qed.

Lemma no_overflow_guard page_size count :
  0 <= page_size -> 0 <= count ->
  page_size * count <= SIZE_MAX size_bits ->
  negb (count =? 0) && (page_size >? SIZE_MAX size_bits / count) = false.
Proof.
  intros Hp Hc Hle.
  destruct (negb (count =? 0) && (page_size >? SIZE_MAX size_bits / count))
    eqn:E; [| reflexivity].
  apply overflow_guard in E; lia.
Qed.

End Arithmetic.

(** ** Running the three operations *)

Ltac run_page :=
  cbv beta delta [ak_page_requestPages ak_page_returnPages
                  ak_page_getPageSize bind run chunk0 release_call
                  page_query fst snd start count] iota zeta.

(** A request either returns the zero chunk or the address the OS gave
    together with the requested count. *)
Lemma requestPages_result size_bits platform o h page_size addr count :
  let r := fst (run o h
             (ak_page_requestPages size_bits platform page_size addr count)) in
  r = chunk0 \/ exists m_addr, r = mkChunk m_addr count.
Proof.
  unfold ak_page_requestPages.
  destruct (negb (count =? 0) && (page_size >? SIZE_MAX size_bits / count));
    [left; reflexivity |].
  destruct platform; simpl.
  - right. eexists. reflexivity.
  - match goal with |- context [?x =? MAP_FAILED size_bits] =>
      destruct (x =? MAP_FAILED size_bits) end;
      simpl; [left; reflexivity | right; eexists; reflexivity].
Qed.

(** Without overflow exactly one OS call is made, for the exact product. *)
Lemma requestPages_calls_os size_bits platform o h page_size addr count :
  is_size_t size_bits page_size -> is_size_t size_bits count ->
  page_size * count <= SIZE_MAX size_bits ->
  snd (run o h (ak_page_requestPages size_bits platform page_size addr count))
  = reserve_call platform page_size addr count :: h.
Proof.
  intros Hp Hc Hle. unfold ak_page_requestPages.
  rewrite no_overflow_guard by (unfold is_size_t in *; lia).
  rewrite to_size_t_id by (unfold is_size_t in *; nia).
  destruct platform; simpl; [reflexivity |].
  destruct (addr =? NULL); simpl;
    match goal with |- context [?x =? MAP_FAILED size_bits] =>
      destruct (x =? MAP_FAILED size_bits) end;
    reflexivity.
Qed.

(** On Linux a failed [mmap] gives the zero chunk. *)
Lemma requestPages_linux_failure size_bits o h page_size addr count :
  (forall a l p f d off, o h (mmap a l p f d off) = MAP_FAILED size_bits) ->
  fst (run o h (ak_page_requestPages size_bits ALLOCKIT_PAGE_PLATFORM_LINUX
                  page_size addr count)) = chunk0.
Proof.
  intros Hfail. unfold ak_page_requestPages.
  destruct (negb (count =? 0) && (page_size >? SIZE_MAX size_bits / count));
    [reflexivity |].
  simpl. rewrite Hfail, Z.eqb_refl. reflexivity.
Qed.

(** On Windows a failed [VirtualAlloc] (it returns [NULL]) gives a chunk
    with a null start and the requested count. *)
Lemma requestPages_windows_failure size_bits o h page_size addr count :
  is_size_t size_bits page_size -> is_size_t size_bits count ->
  page_size * count <= SIZE_MAX size_bits ->
  (forall a l t p, o h (VirtualAlloc a l t p) = NULL) ->
  fst (run o h (ak_page_requestPages size_bits ALLOCKIT_PAGE_PLATFORM_WINDOWS
                  page_size addr count)) = mkChunk NULL count.
Proof.
  intros Hp Hc Hle Hfail. unfold ak_page_requestPages.
  rewrite no_overflow_guard by (unfold is_size_t in *; lia).
  simpl. rewrite Hfail. reflexivity.
Qed.

(** On Linux, under POSIX [mmap], a request with an address hint is
    placed at the hint or fails with the zero chunk. *)
Lemma requestPages_linux_fixed size_bits o h page_size addr count :
  mmap_posix size_bits o -> addr <> NULL ->
  let r := fst (run o h
             (ak_page_requestPages size_bits ALLOCKIT_PAGE_PLATFORM_LINUX
                page_size addr count)) in
  r = chunk0 \/ r = mkChunk addr count.
Proof.
  intros Hos Ha. unfold ak_page_requestPages. cbv zeta.
  destruct (negb (count =? 0) && (page_size >? SIZE_MAX size_bits / count));
    [left; reflexivity |].
  apply Z.eqb_neq in Ha. rewrite Ha. simpl.
  match goal with |- context [o h ?c] =>
    match c with mmap ?a ?l ?p ?f ?d ?off =>
      destruct (Hos h a l p f d off) as [Hf | (_ & Hfix & _)]
    end end.
  - rewrite Hf, Z.eqb_refl. left; reflexivity.
  - rewrite Hfix by (vm_compute; discriminate).
    destruct (addr =? MAP_FAILED size_bits); [left | right]; reflexivity.
Qed.

(** The release always issues its one OS call, and leaves the count. *)
Lemma returnPages_run size_bits platform o h page_size pages :
  let c := release_call size_bits platform page_size pages in
  let res := match platform with
             | ALLOCKIT_PAGE_PLATFORM_WINDOWS => o h c
             | ALLOCKIT_PAGE_PLATFORM_LINUX => o h c + 1
             end in
  run o h (ak_page_returnPages size_bits platform page_size pages)
  = (res, if res =? 0 then pages else mkChunk NULL (count pages), c :: h).
Proof.
  destruct platform; run_page;
    match goal with |- context [negb (?x =? 0)] => destruct (x =? 0) end;
    reflexivity.
Qed.

(** The chunk a request returns never overflows in its turn: with the
    page size it was requested with, [page_size * count] fits [size_t],
    so that the length [ak_page_returnPages] computes for it on Linux is
    the exact product. *)
Lemma requested_chunk_product_fits size_bits platform o h page_size addr n :
  is_size_t size_bits page_size -> is_size_t size_bits n ->
  let pages := fst (run o h
    (ak_page_requestPages size_bits platform page_size addr n)) in
  to_size_t size_bits (page_size * count pages) = page_size * count pages.
Proof.
  intros Hp Hn pages. apply to_size_t_id. subst pages.
  pose proof (SIZE_MAX_pos size_bits) as HM.
  unfold ak_page_requestPages. cbv zeta.
  destruct (negb (n =? 0) && (page_size >? SIZE_MAX size_bits / n)) eqn:G.
  - simpl. unfold is_size_t. lia.
  - assert (page_size * n <= SIZE_MAX size_bits) as Hle.
    { destruct (Z.le_gt_cases (page_size * n) (SIZE_MAX size_bits))
        as [Hle | Hgt]; [exact Hle |].
      apply overflow_guard in Hgt; unfold is_size_t in *; [congruence | lia ..]. }
    destruct platform; simpl.
    + unfold is_size_t in *. nia.
    + match goal with |- context [?x =? MAP_FAILED size_bits] =>
        destruct (x =? MAP_FAILED size_bits) end; simpl;
        unfold is_size_t in *; nia.
Qed.

(** An overflowing request is the program that returns the zero chunk:
    it has no OS call in it. *)
Lemma overflow_returns_zero_chunk size_bits platform page_size addr count :
  is_size_t size_bits page_size -> is_size_t size_bits count ->
  SIZE_MAX size_bits < page_size * count ->
  ak_page_requestPages size_bits platform page_size addr count = Ret chunk0.
Proof.
  intros Hp Hc Hov. unfold ak_page_requestPages.
  replace (negb (count =? 0) && (page_size >? SIZE_MAX size_bits / count))
    with true; [reflexivity |].
  symmetry. apply overflow_guard; unfold is_size_t in *; lia.
Qed.

(** ** The simulated operating systems meet the contracts *)

Lemma generous_mmap_posix : mmap_posix Sim.bits Sim.generous.
Proof.
  intros h addr length prot flags fd offset. simpl.
  destruct (length =? 0) eqn:El; [left; reflexivity | right].
  apply Z.eqb_neq in El. split; [exact El |].
  destruct (Z.land flags MAP_FIXED =? 0) eqn:Ef.
  - apply Z.eqb_eq in Ef. split; [intros Hn; contradiction |].
    intros _. discriminate.
  - apply Z.eqb_neq in Ef. split; [reflexivity | intros He; contradiction].
Qed.

Lemma generous_page_query_wf platform :
  page_query_wf Sim.bits platform Sim.generous.
Proof.
  intros h. destruct platform; simpl.
  - vm_compute. split; [reflexivity | discriminate].
  - right. vm_compute. split; [reflexivity | discriminate].
Qed.

Lemma generous_page_size_stable platform :
  page_size_stable platform Sim.generous.
Proof. intros h h'. reflexivity. Qed.

Lemma is_size_t_64 z : 0 <= z <= 18446744073709551615 -> is_size_t Sim.bits z.
Proof. intros Hz. exact Hz. Qed.

(** ** The operations against the specification *)

(** C1.  When [page_size * count] does not fit [size_t],
    [ak_page_requestPages] returns the chunk with null start and zero
    count and performs no OS call: the call is the program [Ret chunk0],
    and run against any OS after any history it leaves the list of OS
    calls as it was.  Both platforms. *)
Theorem requestPages_overflow size_bits platform page_size addr count :
  is_size_t size_bits page_size -> is_size_t size_bits count ->
  SIZE_MAX size_bits < page_size * count ->
  ak_page_requestPages size_bits platform page_size addr count = Ret chunk0
  /\ forall o h,
       run o h (ak_page_requestPages size_bits platform page_size addr count)
       = (mkChunk NULL 0, h).
Proof.
  intros Hp Hc Hov.
  pose proof (overflow_returns_zero_chunk size_bits platform page_size addr
                count Hp Hc Hov) as E.
  split; [exact E |]. intros o h. rewrite E. reflexivity.
Qed.

Lemma requestPages_overflow_witness :
  ak_page_requestPages Sim.bits ALLOCKIT_PAGE_PLATFORM_LINUX 4096 NULL (2 ^ 52)
  = Ret chunk0
  /\ forall o h,
       run o h (ak_page_requestPages Sim.bits ALLOCKIT_PAGE_PLATFORM_LINUX
                  4096 NULL (2 ^ 52))
       = (mkChunk NULL 0, h).
Proof.
  apply (requestPages_overflow Sim.bits ALLOCKIT_PAGE_PLATFORM_LINUX
           4096 NULL (2 ^ 52)).
  - apply is_size_t_64. lia.
  - apply is_size_t_64. simpl. lia.
  - vm_compute. reflexivity.
Defined.

(** C2 (the Windows build departs from it).  [VirtualAlloc] fails for a
    request of 4 pages of 4096 bytes: the chunk returned has a null start
    but count 4, not the zero chunk that the overflow path and the Linux
    failure path return. *)
Theorem requestPages_windows_failure_keeps_count :
  run Sim.exhausted []
    (ak_page_requestPages Sim.bits ALLOCKIT_PAGE_PLATFORM_WINDOWS 4096 NULL 4)
  = (mkChunk NULL 4,
     [VirtualAlloc NULL 16384 (Z.lor MEM_COMMIT MEM_RESERVE) PAGE_READWRITE])
  /\ run Sim.exhausted []
       (ak_page_requestPages Sim.bits ALLOCKIT_PAGE_PLATFORM_LINUX 4096 NULL 4)
     = (chunk0,
        [mmap NULL 16384 (Z.lor PROT_READ PROT_WRITE)
           (Z.lor MAP_ANONYMOUS MAP_PRIVATE) (-1) 0]).
Proof. split; vm_compute; reflexivity. Qed.

(** C4.  A chunk returned by [ak_page_requestPages] with a non-null start
    has exactly the requested count, whatever the platform and whatever
    the OS answers. *)
Theorem requestPages_all_or_nothing size_bits platform o h page_size addr n :
  start (fst (run o h
    (ak_page_requestPages size_bits platform page_size addr n))) <> NULL ->
  count (fst (run o h
    (ak_page_requestPages size_bits platform page_size addr n))) = n.
Proof.
  intros Hnn.
  destruct (requestPages_result size_bits platform o h page_size addr n)
    as [E | [m E]]; rewrite E in *.
  - exfalso. apply Hnn. reflexivity.
  - reflexivity.
Qed.

Lemma requestPages_all_or_nothing_witness :
  count (fst (run Sim.generous []
    (ak_page_requestPages Sim.bits ALLOCKIT_PAGE_PLATFORM_LINUX 4096 NULL 4)))
  = 4.
Proof.
  apply (requestPages_all_or_nothing Sim.bits ALLOCKIT_PAGE_PLATFORM_LINUX
           Sim.generous [] 4096 NULL 4).
  vm_compute. discriminate.
Defined.

(** C3, as stated, fails: four pages are requested on Linux and then
    returned.  The chunk obtained satisfies the invariant; after the
    successful release its start is null and its count is still 4. *)
Lemma released_chunk_breaks_invariant :
  let pages := fst (run Sim.generous []
    (ak_page_requestPages Sim.bits ALLOCKIT_PAGE_PLATFORM_LINUX 4096 NULL 4)) in
  let after := snd (fst (run Sim.generous []
    (ak_page_returnPages Sim.bits ALLOCKIT_PAGE_PLATFORM_LINUX 4096 pages))) in
  chunk_inv pages /\ after = mkChunk NULL 4 /\ ~ chunk_inv after.
Proof.
  vm_compute. repeat split; try discriminate.
  intros [H _]. specialize (H eq_refl). discriminate.
Qed.

(** On Linux, over POSIX [mmap], every chunk a request returns keeps the
    invariant. *)
Lemma chunk_inv_request_linux size_bits o h page_size addr n :
  mmap_posix size_bits o ->
  is_size_t size_bits page_size -> is_size_t size_bits n ->
  chunk_inv (fst (run o h
    (ak_page_requestPages size_bits ALLOCKIT_PAGE_PLATFORM_LINUX
       page_size addr n))).
Proof.
  intros Hos Hp Hn.
  unfold ak_page_requestPages. cbv zeta.
  destruct (negb (n =? 0) && (page_size >? SIZE_MAX size_bits / n)) eqn:G;
    [split; reflexivity |].
  assert (page_size * n <= SIZE_MAX size_bits) as Hle.
  { destruct (Z.le_gt_cases (page_size * n) (SIZE_MAX size_bits))
      as [Hle | Hgt]; [exact Hle |].
    apply overflow_guard in Hgt; unfold is_size_t in *; [congruence | lia ..]. }
  rewrite to_size_t_id by (unfold is_size_t in *; nia).
  simpl.
  match goal with |- context [o h ?c] =>
    match c with mmap ?a ?l ?p ?f ?d ?off =>
      destruct (Hos h a l p f d off) as [Hf | (Hlen & Hfix & Hany)];
      [rewrite Hf, Z.eqb_refl; split; reflexivity |];
      destruct (o h c =? MAP_FAILED size_bits);
      [split; reflexivity |]; simpl
    end end.
  assert (n <> 0) as Hn0 by (intros ->; apply Hlen; lia).
  unfold chunk_inv; simpl. split; [| intros; contradiction].
  intros Hnull. exfalso. revert Hnull Hfix Hany.
  destruct (addr =? NULL) eqn:Ea; simpl; intros Hnull Hfix Hany.
  - apply Hany; [vm_compute; reflexivity | exact Hnull].
  - apply Z.eqb_neq in Ea. apply Ea. rewrite <- Hnull. symmetry.
    apply Hfix. vm_compute. discriminate.
Qed.

(** On Windows, over a [VirtualAlloc] that fails for size 0, a request
    keeps the invariant unless [VirtualAlloc] fails for a nonzero
    count. *)
Lemma chunk_inv_request_windows size_bits o h page_size addr n :
  VirtualAlloc_documented o ->
  is_size_t size_bits page_size -> is_size_t size_bits n ->
  (n <> 0 -> page_size * n <= SIZE_MAX size_bits ->
   o h (reserve_call ALLOCKIT_PAGE_PLATFORM_WINDOWS page_size addr n)
   <> NULL) ->
  chunk_inv (fst (run o h
    (ak_page_requestPages size_bits ALLOCKIT_PAGE_PLATFORM_WINDOWS
       page_size addr n))).
Proof.
  intros Hos Hp Hn Hok.
  unfold ak_page_requestPages. cbv zeta.
  destruct (negb (n =? 0) && (page_size >? SIZE_MAX size_bits / n)) eqn:G;
    [split; reflexivity |].
  assert (page_size * n <= SIZE_MAX size_bits) as Hle.
  { destruct (Z.le_gt_cases (page_size * n) (SIZE_MAX size_bits))
      as [Hle | Hgt]; [exact Hle |].
    apply overflow_guard in Hgt; unfold is_size_t in *; [congruence | lia ..]. }
  rewrite to_size_t_id by (unfold is_size_t in *; nia).
  cbn [run fst]. unfold chunk_inv. cbn [start count].
  destruct (Z.eq_dec n 0) as [-> | Hn0].
  - split; [reflexivity | intros _].
    apply Hos. lia.
  - split; [| intros; contradiction].
    intros Hnull. exfalso. exact (Hok Hn0 Hle Hnull).
Qed.

(** C3, amended.  Every chunk returned by [ak_page_requestPages] has a
    null start if and only if its count is 0: on the Linux build over
    POSIX [mmap], and on the Windows build over a [VirtualAlloc] that
    fails for size 0, the Windows request of a nonzero count for which
    [VirtualAlloc] fails being left aside.  [ak_page_returnPages], on
    either platform: when the release fails the chunk is left as it was;
    when it succeeds the start is null and the count is the one the
    chunk had, so that the chunk released satisfies the invariant
    exactly when its count was 0. *)
Theorem chunk_invariant_request_and_release size_bits platform o h
    page_size addr n h' page_size' pages :
  reserve_contract size_bits platform o ->
  is_size_t size_bits page_size -> is_size_t size_bits n ->
  (platform = ALLOCKIT_PAGE_PLATFORM_WINDOWS ->
   n <> 0 -> page_size * n <= SIZE_MAX size_bits ->
   o h (reserve_call platform page_size addr n) <> NULL) ->
  chunk_inv (fst (run o h
    (ak_page_requestPages size_bits platform page_size addr n)))
  /\ (let r := fst (run o h'
        (ak_page_returnPages size_bits platform page_size' pages)) in
      let answer := o h' (release_call size_bits platform page_size' pages) in
      (release_succeeded platform answer ->
       fst r <> 0
       /\ snd r = mkChunk NULL (count pages)
       /\ (chunk_inv (snd r) <-> count pages = 0))
      /\ (~ release_succeeded platform answer ->
          fst r = 0 /\ snd r = pages)).
Proof.
  intros Hos Hp Hn Hok. split.
  - destruct platform.
    + apply chunk_inv_request_windows; auto.
    + apply chunk_inv_request_linux; auto.
  - cbv zeta. rewrite returnPages_run. cbv [fst snd].
    assert (forall c, chunk_inv (mkChunk NULL c) <-> c = 0) as Hnull.
    { intros c. unfold chunk_inv. cbn [start count].
      split; [intros [H _]; apply H; reflexivity | intros ->; split; auto]. }
    destruct platform; cbv [release_succeeded release_call];
      match goal with |- context [?x =? 0] => destruct (Z.eqb_spec x 0) end;
      (split; [intros Hs | intros Hf]);
      try (exfalso; lia);
      repeat split; try apply Hnull; auto; try lia.
Qed.

Lemma chunk_invariant_request_and_release_witness :
  chunk_inv (fst (run Sim.generous []
    (ak_page_requestPages Sim.bits ALLOCKIT_PAGE_PLATFORM_WINDOWS
       4096 NULL 4)))
  /\ (let r := fst (run Sim.generous []
        (ak_page_returnPages Sim.bits ALLOCKIT_PAGE_PLATFORM_WINDOWS 4096
           (mkChunk Sim.base 4))) in
      fst r <> 0
      /\ snd r = mkChunk NULL 4
      /\ (chunk_inv (snd r) <-> 4 = 0)).
Proof.
  destruct (chunk_invariant_request_and_release Sim.bits
              ALLOCKIT_PAGE_PLATFORM_WINDOWS Sim.generous [] 4096 NULL 4
              [] 4096 (mkChunk Sim.base 4)) as [Hreq [Hok _]].
  - intros h a l t p ->. reflexivity.
  - apply is_size_t_64. lia.
  - apply is_size_t_64. lia.
  - intros _ _ _. vm_compute. discriminate.
  - split; [exact Hreq |]. apply Hok. vm_compute. discriminate.
Defined.

(** C5.  [ak_page_returnPages] either succeeds (the OS release primitive
    reported success): it returns a nonzero value and the chunk's start is
    null; or fails: it returns 0 and the chunk is exactly as it was.
    Both platforms, every chunk, every OS. *)
Theorem returnPages_success_or_untouched size_bits platform o h page_size pages :
  let r := fst (run o h
             (ak_page_returnPages size_bits platform page_size pages)) in
  let answer := o h (release_call size_bits platform page_size pages) in
  (release_succeeded platform answer /\
   fst r <> 0 /\ start (snd r) = NULL)
  \/
  (~ release_succeeded platform answer /\
   fst r = 0 /\ snd r = pages).
Proof.
  cbv zeta. rewrite returnPages_run. cbv [fst snd].
  destruct platform; cbv [release_succeeded release_call].
  - match goal with |- context [?x =? 0] => destruct (Z.eqb_spec x 0) end.
    + right. repeat split; auto.
    + left. repeat split; auto.
  - match goal with |- context [?x =? 0] => destruct (Z.eqb_spec x 0) end.
    + right. repeat split; auto. lia.
    + left. repeat split; auto. lia.
Qed.

(** C6 (the Windows build departs from it).  Four pages are requested at
    the address 0x10000000 and [VirtualAlloc] fails: the chunk returned
    is neither placed at the hint nor the zero chunk, it has a null start
    and count 4. *)
Theorem requestPages_windows_hint_failure :
  let r := fst (run Sim.exhausted []
    (ak_page_requestPages Sim.bits ALLOCKIT_PAGE_PLATFORM_WINDOWS
       4096 0x10000000 4)) in
  r = mkChunk NULL 4 /\ start r <> 0x10000000 /\ r <> chunk0.
Proof. vm_compute. repeat split; discriminate. Qed.

(** C7 (the release departs from it).  A chunk of 2^52 + 1 pages of
    4096 bytes is returned on Linux.  The product does not fit [size_t];
    it is not checked as it is in [ak_page_requestPages]: [munmap] is
    called, with the wrapped length 4096, and the release is reported
    as a success. *)
Lemma returnPages_overflow_reaches_os :
  let pages := mkChunk Sim.base (2 ^ 52 + 1) in
  let r := run Sim.generous []
    (ak_page_returnPages Sim.bits ALLOCKIT_PAGE_PLATFORM_LINUX 4096 pages) in
  SIZE_MAX Sim.bits < 4096 * count pages
  /\ snd r = [munmap Sim.base 4096]
  /\ fst (fst r) = 1.
Proof. vm_compute. repeat split. Qed.

(** The same arguments are refused by the request, which makes no OS
    call for them. *)
Example requestPages_refuses_the_same_product :
  run Sim.generous []
    (ak_page_requestPages Sim.bits ALLOCKIT_PAGE_PLATFORM_LINUX
       4096 NULL (2 ^ 52 + 1))
  = (chunk0, []).
Proof. vm_compute. reflexivity. Qed.

(** The unchecked product is reached by a chunk that a request did
    return: four pages of 4096 bytes are requested, and returned with the
    page size 2^62 + 1.  [munmap] is asked for 4 bytes and the chunk is
    reported released. *)
Example returnPages_of_requested_chunk_overflows :
  let pages := fst (run Sim.generous []
    (ak_page_requestPages Sim.bits ALLOCKIT_PAGE_PLATFORM_LINUX 4096 NULL 4)) in
  let r := run Sim.generous []
    (ak_page_returnPages Sim.bits ALLOCKIT_PAGE_PLATFORM_LINUX
       (2 ^ 62 + 1) pages) in
  pages = mkChunk Sim.base 4
  /\ SIZE_MAX Sim.bits < (2 ^ 62 + 1) * count pages
  /\ r = (1, mkChunk NULL 4, [munmap Sim.base 4]).
Proof. vm_compute. repeat split. Qed.

(** What [ak_page_getPageSize] returns, as a function of the answer of
    the OS. *)
Lemma getPageSize_run size_bits platform o h :
  run o h (ak_page_getPageSize size_bits platform)
  = (let r := o h (page_query platform) in
     match platform with
     | ALLOCKIT_PAGE_PLATFORM_WINDOWS => to_size_t size_bits r
     | ALLOCKIT_PAGE_PLATFORM_LINUX =>
         if r <=? 0 then 0 else to_size_t size_bits r
     end, page_query platform :: h).
Proof.
  destruct platform; run_page; [reflexivity |].
  destruct (o h (sysconf _SC_PAGESIZE) <=? 0); reflexivity.
Qed.

(** C9.  Over an OS that answers the page-size query as the platform
    documents (-1 or a positive value from [sysconf], a positive
    [dwPageSize] from [GetSystemInfo]), [ak_page_getPageSize] returns 0
    exactly when the query failed; when it did not fail the value
    returned is positive and is the page size the OS reported; and if
    the page size of the OS does not change during the run, every call
    returns the same value. *)
Theorem getPageSize_spec size_bits platform o h :
  page_query_wf size_bits platform o ->
  let answer := o h (page_query platform) in
  let v := fst (run o h (ak_page_getPageSize size_bits platform)) in
  (v = 0 <-> query_failed platform answer)
  /\ (~ query_failed platform answer -> 0 < v /\ v = answer)
  /\ (page_size_stable platform o ->
      forall h', fst (run o h' (ak_page_getPageSize size_bits platform)) = v).
Proof.
  intros Hwf. cbv zeta.
  assert (forall h0,
    let a := o h0 (page_query platform) in
    let v := fst (run o h0 (ak_page_getPageSize size_bits platform)) in
    (query_failed platform a /\ v = 0) \/
    (~ query_failed platform a /\ 0 < v /\ v = a)) as Hcase.
  { intros h0. cbv zeta. rewrite getPageSize_run. cbv [fst].
    specialize (Hwf h0). pose proof (SIZE_MAX_pos size_bits) as HM.
    destruct platform; cbv [query_answer query_failed page_query] in *.
    - right. rewrite to_size_t_id by (unfold is_size_t; lia).
      split; [intros [] | lia].
    - destruct Hwf as [Hm | Hr].
      + left. rewrite Hm. split; reflexivity.
      + right.
        assert (SIZE_MAX size_bits / 2 <= SIZE_MAX size_bits)
          by (apply Z.div_le_upper_bound; lia).
        destruct (Z.leb_spec (o h0 (sysconf _SC_PAGESIZE)) 0); [lia |].
        rewrite to_size_t_id by (unfold is_size_t; lia).
        repeat split; lia. }
  split; [| split].
  - destruct (Hcase h) as [[Hf Hv] | [Hf [Hv _]]]; split; intros; auto.
    + lia.
    + contradiction.
  - intros Hnf. destruct (Hcase h) as [[Hf _] | [_ Hv]];
      [contradiction | exact Hv].
  - intros Hst h'. rewrite !getPageSize_run. cbv [fst].
    rewrite (Hst h' h). reflexivity.
Qed.

Lemma getPageSize_spec_witness :
  let answer := Sim.generous [] (page_query ALLOCKIT_PAGE_PLATFORM_LINUX) in
  let v := fst (run Sim.generous []
    (ak_page_getPageSize Sim.bits ALLOCKIT_PAGE_PLATFORM_LINUX)) in
  (v = 0 <-> query_failed ALLOCKIT_PAGE_PLATFORM_LINUX answer)
  /\ (~ query_failed ALLOCKIT_PAGE_PLATFORM_LINUX answer ->
      0 < v /\ v = answer)
  /\ (page_size_stable ALLOCKIT_PAGE_PLATFORM_LINUX Sim.generous ->
      forall h', fst (run Sim.generous h'
        (ak_page_getPageSize Sim.bits ALLOCKIT_PAGE_PLATFORM_LINUX)) = v).
Proof.
  apply (getPageSize_spec Sim.bits ALLOCKIT_PAGE_PLATFORM_LINUX
           Sim.generous []).
  exact (generous_page_query_wf ALLOCKIT_PAGE_PLATFORM_LINUX).
Defined.

(** The query that fails: [sysconf] answers -1 and the page size
    returned is 0. *)
Example getPageSize_query_failed :
  run Sim.exhausted []
    (ak_page_getPageSize Sim.bits ALLOCKIT_PAGE_PLATFORM_LINUX)
  = (0, [sysconf _SC_PAGESIZE]).
Proof. reflexivity. Qed.

(** C10.  [ak_page_returnPages] never changes the count of the chunk: when
    it returns nonzero the chunk left is the old one with its start set
    to null, when it returns 0 the chunk is the old one. *)
Theorem returnPages_keeps_count size_bits platform o h page_size pages :
  let r := fst (run o h
             (ak_page_returnPages size_bits platform page_size pages)) in
  count (snd r) = count pages
  /\ (fst r <> 0 -> snd r = mkChunk NULL (count pages))
  /\ (fst r = 0 -> snd r = pages).
Proof.
  cbv zeta. rewrite returnPages_run. cbv [fst snd].
  match goal with |- context [?x =? 0] => destruct (Z.eqb_spec x 0) end;
    repeat split; intros; try reflexivity; contradiction.
Qed.

(** A released chunk that still carries its four pages. *)
Example returnPages_keeps_count_of_four :
  run Sim.generous []
    (ak_page_returnPages Sim.bits ALLOCKIT_PAGE_PLATFORM_WINDOWS 4096
       (mkChunk Sim.base 4))
  = (1, mkChunk NULL 4, [VirtualFree Sim.base 0 MEM_RELEASE]).
Proof. reflexivity. Qed.

End PageFacts.

(** * Properties of the allocator interface *)

Module InterfaceFacts.
Import Interface.
Local Open Scope string_scope.

(** The replacement of [ak_free]: the callee is read through the
    identifier [Alloc], not through the macro's parameter [pAlloc]. *)
Lemma ak_free_expansion :
  preprocess (ak_free (Id "my_allocator") (Id "heap_list"))
  = Some (Call (Arrow (Id "Alloc") "free")
            [Id "my_allocator"; Id "heap_list"]).
Proof. reflexivity. Qed.

(** The second definition of [ak_alloc] is the one in force, and inside
    its own replacement list the name [ak_alloc] is not replaced again:
    what is left is a call of a function of that name. *)
Lemma ak_alloc_expansion :
  preprocess (ak_alloc (Id "my_allocator") (Id "int") (Num 10))
  = Some (Call (Id "ak_alloc")
            [Id "my_allocator"; Call (Id "sizeof") [Id "int"];
             Call (Id "alignof") [Id "int"]; Num 10]).
Proof. reflexivity. Qed.

Lemma ak_resize_expansion :
  preprocess (ak_resize (Id "my_allocator") (Id "heap_list") (Id "int")
                (Num 20))
  = Some (Call (Id "ak_resize")
            [Id "my_allocator"; Id "heap_list";
             Call (Id "sizeof") [Id "int"];
             Call (Id "alignof") [Id "int"]; Num 20]).
Proof. reflexivity. Qed.

(** In any scope, the replacement of [ak_free(x, y)] invokes the [free]
    of the instance that the identifier [Alloc] points to. *)
Lemma ak_free_invokes_through_Alloc s x y q b p v :
  lookup "Alloc" (ident s) = Some q ->
  deref q (instance s) = Some b ->
  lookup x (ident s) = Some p ->
  lookup y (ident s) = Some v ->
  invocation s (Call (Arrow (Id "Alloc") "free") [Id x; Id y])
  = Some (free b, [p; v]).
Proof.
  intros HA Hb Hx Hy. unfold invocation. simpl.
  rewrite HA, Hb, Hx, Hy. reflexivity.
Qed.

(** With the first definition of [ak_alloc] alone (lines 225-226) the
    four-argument form dispatches to the [alloc] of the instance
    passed. *)
Example ak_alloc_first_definition :
  match expand 8 (firstn 3 allockit_h) []
          (Call (Id "ak_alloc")
             [Id "my_allocator"; Num 4; Num 4; Num 10]) with
  | Some e => invocation two_allocators e
  | None => None
  end = Some (11, [1000; 4; 4; 10]).
Proof. reflexivity. Qed.

(** C8 (the macros depart from it).  At a place where [my_allocator] and
    another allocator named [Alloc] are in scope,
    [ak_free(my_allocator, heap_list)] invokes the [free] bound to
    [Alloc] (function 23), not the one bound to [my_allocator] (function
    13); where no [Alloc] is in scope it does not compile.
    [ak_alloc(my_allocator, int, 10)] and
    [ak_resize(my_allocator, heap_list, int, 20)] invoke no capability of
    the instance: they are left as calls of functions named [ak_alloc]
    and [ak_resize], which the header does not declare. *)
Theorem entry_points_do_not_dispatch_to_instance :
  dispatch two_allocators (ak_free (Id "my_allocator") (Id "heap_list"))
  = Some (23, [1000; 5000])
  /\ deref 1000 (instance two_allocators) = Some (mkAkAlloc 11 12 13)
  /\ dispatch one_allocator (ak_free (Id "my_allocator") (Id "heap_list"))
     = None
  /\ dispatch two_allocators
       (ak_alloc (Id "my_allocator") (Id "int") (Num 10)) = None
  /\ dispatch two_allocators
       (ak_resize (Id "my_allocator") (Id "heap_list") (Id "int") (Num 20))
     = None.
Proof. repeat split. Qed.

End InterfaceFacts.

(** * Further properties of the page provider *)

Module PageExtra.
Import Page OsContract PageFacts.

(** Running a sequence of two programs: the second runs after the calls
    of the first, on the result of the first. *)
Lemma run_bind {A B : Type} (o : os) (p : prog A) (f : A -> prog B) :
  forall h,
    run o h (bind p f) = run o (snd (run o h p)) (f (fst (run o h p))).
Proof.
  induction p as [a | c k IH]; intros h; simpl.
  - reflexivity.
  - apply IH.
Qed.

(** A request whose product fits: the one OS call, and the chunk made of
    its answer. *)
Lemma requestPages_run_fits size_bits platform o h page_size addr n :
  is_size_t size_bits page_size -> is_size_t size_bits n ->
  page_size * n <= SIZE_MAX size_bits ->
  run o h (ak_page_requestPages size_bits platform page_size addr n)
  = (let m := o h (reserve_call platform page_size addr n) in
     match platform with
     | ALLOCKIT_PAGE_PLATFORM_WINDOWS => mkChunk m n
     | ALLOCKIT_PAGE_PLATFORM_LINUX =>
         if m =? MAP_FAILED size_bits then chunk0 else mkChunk m n
     end, reserve_call platform page_size addr n :: h).
Proof.
  intros Hp Hn Hle. unfold ak_page_requestPages.
  rewrite no_overflow_guard by (unfold is_size_t in *; lia).
  rewrite to_size_t_id by (unfold is_size_t in *; nia).
  destruct platform; simpl; [reflexivity |].
  destruct (addr =? NULL); simpl;
    match goal with |- context [?x =? MAP_FAILED size_bits] =>
      destruct (x =? MAP_FAILED size_bits) end;
    reflexivity.
Qed.

(** X1.  The overflow guard of [ak_page_requestPages] is exact.  A
    request whose product fits [size_t], a zero count or page size
    included, always reaches the OS, with one call that asks for exactly
    [page_size * n] bytes; a request whose product does not fit never
    does. *)
Theorem requestPages_reaches_os_iff_fits size_bits platform o h
    page_size addr n :
  is_size_t size_bits page_size -> is_size_t size_bits n ->
  (page_size * n <= SIZE_MAX size_bits ->
   snd (run o h (ak_page_requestPages size_bits platform page_size addr n))
   = reserve_call platform page_size addr n :: h)
  /\ (SIZE_MAX size_bits < page_size * n ->
      snd (run o h (ak_page_requestPages size_bits platform page_size addr n))
      = h).
Proof.
  intros Hp Hn. split.
  - intros Hle. rewrite requestPages_run_fits by assumption. reflexivity.
  - intros Hov. rewrite overflow_returns_zero_chunk by assumption.
    reflexivity.
Qed.

Lemma requestPages_reaches_os_iff_fits_witness :
  (4096 * 4 <= SIZE_MAX Sim.bits ->
   snd (run Sim.generous []
     (ak_page_requestPages Sim.bits ALLOCKIT_PAGE_PLATFORM_LINUX 4096 NULL 4))
   = [reserve_call ALLOCKIT_PAGE_PLATFORM_LINUX 4096 NULL 4])
  /\ (SIZE_MAX Sim.bits < 4096 * 4 ->
      snd (run Sim.generous []
        (ak_page_requestPages Sim.bits ALLOCKIT_PAGE_PLATFORM_LINUX
           4096 NULL 4))
      = []).
Proof.
  apply (requestPages_reaches_os_iff_fits Sim.bits
           ALLOCKIT_PAGE_PLATFORM_LINUX Sim.generous [] 4096 NULL 4).
  - apply is_size_t_64. lia.
  - apply is_size_t_64. lia.
Defined.

(** X2.  On Linux, over POSIX [mmap], a request with a non-null address
    whose product fits asks [mmap] for that address with [MAP_FIXED]
    set, and returns either the zero chunk or the chunk that starts at
    exactly that address with the requested count. *)
Theorem requestPages_linux_hint size_bits o h page_size addr n :
  mmap_posix size_bits o -> addr <> NULL ->
  is_size_t size_bits page_size -> is_size_t size_bits n ->
  page_size * n <= SIZE_MAX size_bits ->
  let r := run o h
    (ak_page_requestPages size_bits ALLOCKIT_PAGE_PLATFORM_LINUX
       page_size addr n) in
  (exists flags,
     snd r = mmap addr (page_size * n) (Z.lor PROT_READ PROT_WRITE)
               flags (-1) 0 :: h
     /\ Z.land flags MAP_FIXED = MAP_FIXED)
  /\ (fst r = chunk0 \/ fst r = mkChunk addr n).
Proof.
  intros Hos Ha Hp Hn Hle r. subst r. split.
  - rewrite requestPages_run_fits by assumption.
    cbv [snd reserve_call]. apply Z.eqb_neq in Ha. rewrite Ha.
    eexists. split; reflexivity.
  - apply requestPages_linux_fixed; assumption.
Qed.

Lemma requestPages_linux_hint_witness :
  let r := run Sim.generous []
    (ak_page_requestPages Sim.bits ALLOCKIT_PAGE_PLATFORM_LINUX
       4096 0x10000000 4) in
  (exists flags,
     snd r = mmap 0x10000000 (4096 * 4) (Z.lor PROT_READ PROT_WRITE)
               flags (-1) 0 :: []
     /\ Z.land flags MAP_FIXED = MAP_FIXED)
  /\ (fst r = chunk0 \/ fst r = mkChunk 0x10000000 4).
Proof.
  apply (requestPages_linux_hint Sim.bits Sim.generous [] 4096 0x10000000 4).
  - exact generous_mmap_posix.
  - discriminate.
  - apply is_size_t_64. lia.
  - apply is_size_t_64. lia.
  - vm_compute. discriminate.
Defined.

(** X3.  On Linux the start of the chunk that [ak_page_requestPages]
    returns is never [MAP_FAILED], whatever the OS answers: the chunk is
    the zero chunk, or it carries an answer of [mmap] other than
    [MAP_FAILED] together with the requested count.  A caller needs to
    test the start against null only. *)
Theorem requestPages_linux_start_never_MAP_FAILED size_bits o h
    page_size addr n :
  let r := fst (run o h
    (ak_page_requestPages size_bits ALLOCKIT_PAGE_PLATFORM_LINUX
       page_size addr n)) in
  start r <> MAP_FAILED size_bits
  /\ (r = chunk0
      \/ exists m, r = mkChunk m n /\ m <> MAP_FAILED size_bits).
Proof.
  cbv zeta.
  assert (NULL <> MAP_FAILED size_bits) as H0.
  { rewrite MAP_FAILED_is_SIZE_MAX. pose proof (SIZE_MAX_pos size_bits).
    unfold NULL. lia. }
  unfold ak_page_requestPages. cbv zeta.
  destruct (negb (n =? 0) && (page_size >? SIZE_MAX size_bits / n));
    [split; [exact H0 | left; reflexivity] |].
  cbn [run fst].
  match goal with |- context [?x =? MAP_FAILED size_bits] =>
    destruct (Z.eqb_spec x (MAP_FAILED size_bits)) as [E | E] end;
    cbn [run fst start].
  - split; [exact H0 | left; reflexivity].
  - split; [exact E | right; eexists; split; [reflexivity | exact E]].
Qed.

(** X4.  On Linux, over POSIX [mmap], a request of zero bytes (no pages,
    or pages of size 0) is not refused by the code: it reaches [mmap]
    with length 0, and since [mmap] fails for it the zero chunk is
    returned. *)
Theorem requestPages_of_nothing size_bits o h page_size addr n :
  mmap_posix size_bits o ->
  is_size_t size_bits page_size -> is_size_t size_bits n ->
  page_size * n = 0 ->
  run o h (ak_page_requestPages size_bits ALLOCKIT_PAGE_PLATFORM_LINUX
             page_size addr n)
  = (chunk0,
     [mmap addr 0 (Z.lor PROT_READ PROT_WRITE)
        (if addr =? NULL then Z.lor MAP_ANONYMOUS MAP_PRIVATE
         else Z.lor (Z.lor MAP_ANONYMOUS MAP_PRIVATE) MAP_FIXED) (-1) 0]
     ++ h).
Proof.
  intros Hos Hp Hn H0. pose proof (SIZE_MAX_pos size_bits) as HM.
  rewrite requestPages_run_fits by (auto; lia).
  cbv [reserve_call]. rewrite H0. cbv zeta.
  match goal with |- context [o h ?c] =>
    match c with mmap ?a ?l ?p ?f ?d ?off =>
      destruct (Hos h a l p f d off) as [Hf | (Hlen & _)]
    end end.
  - rewrite Hf, Z.eqb_refl. reflexivity.
  - exfalso. apply Hlen. reflexivity.
Qed.

Lemma requestPages_of_nothing_witness :
  run Sim.generous []
    (ak_page_requestPages Sim.bits ALLOCKIT_PAGE_PLATFORM_LINUX 4096 NULL 0)
  = (chunk0,
     [mmap NULL 0 (Z.lor PROT_READ PROT_WRITE)
        (if NULL =? NULL then Z.lor MAP_ANONYMOUS MAP_PRIVATE
         else Z.lor (Z.lor MAP_ANONYMOUS MAP_PRIVATE) MAP_FIXED) (-1) 0]
     ++ []).
Proof.
  apply (requestPages_of_nothing Sim.bits Sim.generous [] 4096 NULL 0).
  - exact generous_mmap_posix.
  - apply is_size_t_64. lia.
  - apply is_size_t_64. lia.
  - reflexivity.
Defined.

(** X5.  Request, then return with the same page size.  When the product
    fits and (on Linux) [mmap] did not fail, the two operations make
    exactly two OS calls, and the release is asked for what was reserved:
    on Linux [munmap] of the address [mmap] returned and of the exact
    length [page_size * n] that [mmap] was asked for, on Windows
    [VirtualFree] of the address [VirtualAlloc] returned.  The value
    returned is nonzero exactly when the chunk is left with a null start,
    and the chunk keeps the count [n]. *)
Theorem request_then_return size_bits platform o h page_size addr n :
  is_size_t size_bits page_size -> is_size_t size_bits n ->
  page_size * n <= SIZE_MAX size_bits ->
  let reserve := reserve_call platform page_size addr n in
  let m := o h reserve in
  (platform = ALLOCKIT_PAGE_PLATFORM_LINUX -> m <> MAP_FAILED size_bits) ->
  let r := run o h
    (pages <- ak_page_requestPages size_bits platform page_size addr n ;;
     ak_page_returnPages size_bits platform page_size pages) in
  snd r = match platform with
          | ALLOCKIT_PAGE_PLATFORM_WINDOWS => VirtualFree m 0 MEM_RELEASE
          | ALLOCKIT_PAGE_PLATFORM_LINUX => munmap m (page_size * n)
          end :: reserve :: h
  /\ count (snd (fst r)) = n
  /\ (fst (fst r) <> 0 -> start (snd (fst r)) = NULL)
  /\ (fst (fst r) = 0 -> start (snd (fst r)) = m).
Proof.
  intros Hp Hn Hle reserve m Hok r. subst r.
  rewrite run_bind, requestPages_run_fits by assumption.
  cbv [fst snd]. fold reserve. fold m. cbv zeta.
  assert (match platform with
          | ALLOCKIT_PAGE_PLATFORM_WINDOWS => mkChunk m n
          | ALLOCKIT_PAGE_PLATFORM_LINUX =>
              if m =? MAP_FAILED size_bits then chunk0 else mkChunk m n
          end = mkChunk m n) as ->.
  { destruct platform; [reflexivity |].
    destruct (Z.eqb_spec m (MAP_FAILED size_bits)) as [E | _];
      [exfalso; apply Hok; auto | reflexivity]. }
  rewrite returnPages_run. cbv [fst snd release_call start count].
  rewrite to_size_t_id by (unfold is_size_t in *; nia).
  split; [destruct platform; reflexivity |].
  match goal with |- context [?x =? 0] => destruct (Z.eqb_spec x 0) end;
    simpl; repeat split; intros; try reflexivity; contradiction.
Qed.

Lemma request_then_return_witness :
  let r := run Sim.generous []
    (pages <- ak_page_requestPages Sim.bits ALLOCKIT_PAGE_PLATFORM_LINUX
                4096 NULL 4 ;;
     ak_page_returnPages Sim.bits ALLOCKIT_PAGE_PLATFORM_LINUX 4096 pages) in
  snd r = [munmap Sim.base (4096 * 4);
           reserve_call ALLOCKIT_PAGE_PLATFORM_LINUX 4096 NULL 4]
  /\ count (snd (fst r)) = 4
  /\ (fst (fst r) <> 0 -> start (snd (fst r)) = NULL)
  /\ (fst (fst r) = 0 -> start (snd (fst r)) = Sim.base).
Proof.
  apply (request_then_return Sim.bits ALLOCKIT_PAGE_PLATFORM_LINUX
           Sim.generous [] 4096 NULL 4).
  - apply is_size_t_64. lia.
  - apply is_size_t_64. lia.
  - vm_compute. discriminate.
  - intros _. vm_compute. discriminate.
Defined.

(** X6.  Returning a chunk whose start is already null (a chunk that
    was released, or the zero chunk of a failed request) is not guarded:
    the release primitive is called with the null address, and whatever
    it answers the chunk is left exactly as it was. *)
Theorem returnPages_null_start size_bits platform o h page_size pages :
  start pages = NULL ->
  let r := run o h (ak_page_returnPages size_bits platform page_size pages) in
  snd (fst r) = pages
  /\ snd r = match platform with
             | ALLOCKIT_PAGE_PLATFORM_WINDOWS =>
                 VirtualFree NULL 0 MEM_RELEASE
             | ALLOCKIT_PAGE_PLATFORM_LINUX =>
                 munmap NULL (to_size_t size_bits (page_size * count pages))
             end :: h.
Proof.
  intros Hnull r. subst r. rewrite returnPages_run. cbv [fst snd].
  destruct pages as [s c]. simpl in Hnull. subst s. split.
  - match goal with |- context [if ?b then _ else _] => destruct b end;
      reflexivity.
  - destruct platform; reflexivity.
Qed.

Lemma returnPages_null_start_witness :
  let r := run Sim.generous []
    (ak_page_returnPages Sim.bits ALLOCKIT_PAGE_PLATFORM_LINUX 4096
       (mkChunk NULL 4)) in
  snd (fst r) = mkChunk NULL 4
  /\ snd r = [munmap NULL (to_size_t Sim.bits (4096 * 4))].
Proof.
  apply (returnPages_null_start Sim.bits ALLOCKIT_PAGE_PLATFORM_LINUX
           Sim.generous [] 4096 (mkChunk NULL 4)).
  reflexivity.
Defined.

(** X7.  [ak_page_getPageSize] keeps nothing between calls: two calls in
    a row put the page-size query to the OS twice, and each returns what
    the OS answered to its own query.  Whatever the OS answers, the
    values returned are values of [size_t]. *)
Theorem getPageSize_asks_every_time size_bits platform o h :
  let twice :=
    a <- ak_page_getPageSize size_bits platform ;;
    b <- ak_page_getPageSize size_bits platform ;;
    Ret (a, b) in
  snd (run o h twice) = [page_query platform; page_query platform] ++ h
  /\ fst (fst (run o h twice))
     = fst (run o h (ak_page_getPageSize size_bits platform))
  /\ snd (fst (run o h twice))
     = fst (run o (page_query platform :: h)
              (ak_page_getPageSize size_bits platform))
  /\ is_size_t size_bits (fst (fst (run o h twice)))
  /\ is_size_t size_bits (snd (fst (run o h twice))).
Proof.
  cbv zeta. rewrite !run_bind. rewrite !getPageSize_run.
  cbv [fst snd run].
  assert (forall r,
    is_size_t size_bits
      match platform with
      | ALLOCKIT_PAGE_PLATFORM_WINDOWS => to_size_t size_bits r
      | ALLOCKIT_PAGE_PLATFORM_LINUX =>
          if r <=? 0 then 0 else to_size_t size_bits r
      end) as Hrange.
  { intros r. destruct platform; [apply to_size_t_range |].
    destruct (r <=? 0); [| apply to_size_t_range].
    pose proof (SIZE_MAX_pos size_bits). unfold is_size_t. lia. }
  repeat split; try apply Hrange.
Qed.

(** X8.  On Linux every answer of [sysconf] that is not positive, 0 and
    the negative values other than -1 included, makes
    [ak_page_getPageSize] return 0; a positive answer that fits [size_t]
    is returned as it is. *)
Theorem getPageSize_linux size_bits o h :
  let answer := o h (sysconf _SC_PAGESIZE) in
  let v := fst (run o h
    (ak_page_getPageSize size_bits ALLOCKIT_PAGE_PLATFORM_LINUX)) in
  answer <= SIZE_MAX size_bits ->
  (v = 0 <-> answer <= 0) /\ (0 < answer -> v = answer).
Proof.
  cbv zeta. rewrite getPageSize_run. cbv [fst page_query]. intros Hle.
  destruct (Z.leb_spec (o h (sysconf _SC_PAGESIZE)) 0) as [Hn | Hpos].
  - split; [split; auto | lia].
  - rewrite to_size_t_id by (unfold is_size_t; lia).
    split; [split; lia | reflexivity].
Qed.

Lemma getPageSize_linux_witness :
  let answer := Sim.generous [] (sysconf _SC_PAGESIZE) in
  let v := fst (run Sim.generous []
    (ak_page_getPageSize Sim.bits ALLOCKIT_PAGE_PLATFORM_LINUX)) in
  (v = 0 <-> answer <= 0) /\ (0 < answer -> v = answer).
Proof.
  apply (getPageSize_linux Sim.bits Sim.generous []).
  vm_compute. discriminate.
Defined.

End PageExtra.

(** * Further properties of the allocator interface *)

Module InterfaceExtra.
Import Interface.
Local Open Scope string_scope.

(** An identifier that the header does not define is left alone. *)
Lemma expand_plain_identifier n hidden x :
  defined allockit_h x = None ->
  expand (S n) allockit_h hidden (Id x) = Some (Id x).
Proof. intros Hx. cbn [expand]. rewrite Hx. reflexivity. Qed.

(** A call whose callee is a macro name being rescanned stays a call of
    that name. *)
Lemma expand_hidden_call n ms hidden x name params body args e :
  defined ms x = Some (mkMacro name (Some params) body) ->
  member x hidden = true ->
  expand (S (S n)) ms hidden (Call (Id x) args) = Some e ->
  exists args', e = Call (Id x) args'.
Proof.
  intros Hdef Hmem. cbn [expand]. rewrite Hdef, Hmem.
  match goal with |- match sequence ?l with _ => _ end = _ -> _ =>
    destruct (sequence l) end; [| discriminate].
  intros H. inversion H. eexists. reflexivity.
Qed.

(** The replacement of a use of [ak_alloc] and of [ak_resize], whatever
    the arguments: a call of the identifier of that name. *)
Lemma ak_alloc_callee n a T c e :
  expand (S (S (S n))) allockit_h [] (ak_alloc a T c) = Some e ->
  exists args, e = Call (Id "ak_alloc") args.
Proof.
  remember (S (S n)) as m eqn:Em. unfold ak_alloc. simpl.
  destruct (expand m allockit_h [] a); [| discriminate].
  destruct (expand m allockit_h [] T); [| discriminate].
  destruct (expand m allockit_h [] c); [| discriminate].
  subst m. eapply expand_hidden_call; reflexivity.
Qed.

Lemma ak_resize_callee n a p T c e :
  expand (S (S (S n))) allockit_h [] (ak_resize a p T c) = Some e ->
  exists args, e = Call (Id "ak_resize") args.
Proof.
  remember (S (S n)) as m eqn:Em. unfold ak_resize. simpl.
  destruct (expand m allockit_h [] a); [| discriminate].
  destruct (expand m allockit_h [] p); [| discriminate].
  destruct (expand m allockit_h [] T); [| discriminate].
  destruct (expand m allockit_h [] c); [| discriminate].
  subst m. eapply expand_hidden_call; reflexivity.
Qed.

(** One step of the replacement of a function-like macro. *)
Lemma expand_invocation n ms hidden x name params body args :
  defined ms x = Some (mkMacro name (Some params) body) ->
  member x hidden = false ->
  List.length params = List.length args ->
  expand (S n) ms hidden (Call (Id x) args)
  = match sequence (map (expand n ms hidden) args) with
    | Some args' =>
        expand n ms (x :: hidden) (subst (combine params args') body)
    | None => None
    end.
Proof.
  intros Hdef Hmem Hlen. cbn [expand]. rewrite Hdef, Hmem, Hlen.
  rewrite Nat.eqb_refl. reflexivity.
Qed.

(** A function-like macro used with the wrong number of arguments. *)
Lemma expand_wrong_arity n ms hidden x name params body args :
  defined ms x = Some (mkMacro name (Some params) body) ->
  member x hidden = false ->
  List.length params <> List.length args ->
  expand (S n) ms hidden (Call (Id x) args) = None.
Proof.
  intros Hdef Hmem Hlen. cbn [expand]. rewrite Hdef, Hmem.
  apply Nat.eqb_neq in Hlen. rewrite Hlen. reflexivity.
Qed.

(** One step of the replacement of a call through a member. *)
Lemma expand_call_through_member n ms hidden e f args :
  expand (S n) ms hidden (Call (Arrow e f) args)
  = match expand n ms hidden (Arrow e f),
          sequence (map (expand n ms hidden) args) with
    | Some f', Some args' => Some (Call f' args')
    | _, _ => None
    end.
Proof. reflexivity. Qed.

Lemma expand_member_of_identifier n ms hidden y f :
  defined ms y = None ->
  expand (S (S n)) ms hidden (Arrow (Id y) f) = Some (Arrow (Id y) f).
Proof. intros Hy. cbn [expand]. rewrite Hy. reflexivity. Qed.

(** The replacement of [ak_free(x, y)] for two plain identifiers. *)
Lemma ak_free_replacement x y :
  defined allockit_h x = None -> defined allockit_h y = None ->
  preprocess (ak_free (Id x) (Id y))
  = Some (Call (Arrow (Id "Alloc") "free") [Id x; Id y]).
Proof.
  intros Hx Hy. unfold preprocess, ak_free.
  assert (forall n hidden,
    sequence (map (expand (S n) allockit_h hidden) [Id x; Id y])
    = Some [Id x; Id y]) as Hargs.
  { intros n hidden. cbn [map sequence].
    rewrite !expand_plain_identifier by assumption. reflexivity. }
  rewrite (expand_invocation 7 allockit_h [] "ak_free" "ak_free"
             ["pAlloc"; "Addr"]
             (Call (Arrow (Id "Alloc") "free") [Id "pAlloc"; Id "Addr"]))
    by reflexivity.
  rewrite Hargs.
  assert (subst (combine ["pAlloc"; "Addr"] [Id x; Id y])
            (Call (Arrow (Id "Alloc") "free") [Id "pAlloc"; Id "Addr"])
          = Call (Arrow (Id "Alloc") "free") [Id x; Id y]) as ->
    by reflexivity.
  rewrite expand_call_through_member.
  rewrite expand_member_of_identifier by reflexivity.
  rewrite Hargs. reflexivity.
Qed.

(** X10.  For two identifiers [x] and [y] that are not macros of the
    header, [ak_free(x, y)] passes the values of [x] and [y], in this
    order and unchanged, to the [free] of the instance that [Alloc]
    designates; it compiles only where [Alloc], [x] and [y] are in scope
    and [Alloc] points to an instance. *)
Theorem ak_free_of_identifiers s x y :
  defined allockit_h x = None -> defined allockit_h y = None ->
  dispatch s (ak_free (Id x) (Id y))
  = match lookup "Alloc" (ident s) with
    | Some q =>
        match deref q (instance s) with
        | Some inst =>
            match lookup x (ident s), lookup y (ident s) with
            | Some p, Some v => Some (free inst, [p; v])
            | _, _ => None
            end
        | None => None
        end
    | None => None
    end.
Proof.
  intros Hx Hy. unfold dispatch. rewrite ak_free_replacement by assumption.
  unfold invocation. cbn [eval map sequence].
  destruct (lookup "Alloc" (ident s)) as [q |]; [| reflexivity].
  destruct (deref q (instance s)) as [inst |]; [| reflexivity].
  cbn. destruct (lookup x (ident s)), (lookup y (ident s)); reflexivity.
Qed.

Lemma ak_free_of_identifiers_witness :
  dispatch two_allocators (ak_free (Id "Alloc") (Id "heap_list"))
  = match lookup "Alloc" (ident two_allocators) with
    | Some q =>
        match deref q (instance two_allocators) with
        | Some inst =>
            match lookup "Alloc" (ident two_allocators),
                  lookup "heap_list" (ident two_allocators) with
            | Some p, Some v => Some (free inst, [p; v])
            | _, _ => None
            end
        | None => None
        end
    | None => None
    end.
Proof.
  apply (ak_free_of_identifiers two_allocators "Alloc" "heap_list");
    reflexivity.
Defined.

(** X11.  At a place that declares no function named [ak_alloc] and none
    named [ak_resize], no use of [ak_alloc] or [ak_resize] invokes
    anything, whatever the arguments: the use either is not a valid
    macro invocation or is left as a call of an undeclared function. *)
Theorem ak_alloc_and_ak_resize_invoke_nothing s a p T c :
  lookup "ak_alloc" (ident s) = None ->
  lookup "ak_resize" (ident s) = None ->
  dispatch s (ak_alloc a T c) = None
  /\ dispatch s (ak_resize a p T c) = None.
Proof.
  intros Ha Hr. unfold dispatch, preprocess. split.
  - destruct (expand 8 allockit_h [] (ak_alloc a T c)) as [e |] eqn:E;
      [| reflexivity].
    apply (ak_alloc_callee 5) in E. destruct E as [args ->].
    unfold invocation. cbn [eval]. rewrite Ha. reflexivity.
  - destruct (expand 8 allockit_h [] (ak_resize a p T c)) as [e |] eqn:E;
      [| reflexivity].
    apply (ak_resize_callee 5) in E. destruct E as [args ->].
    unfold invocation. cbn [eval]. rewrite Hr. reflexivity.
Qed.

Lemma ak_alloc_and_ak_resize_invoke_nothing_witness :
  dispatch one_allocator (ak_alloc (Id "my_allocator") (Id "int") (Num 10))
  = None
  /\ dispatch one_allocator
       (ak_resize (Id "my_allocator") (Id "heap_list") (Id "int") (Num 20))
     = None.
Proof.
  apply (ak_alloc_and_ak_resize_invoke_nothing one_allocator
           (Id "my_allocator") (Id "heap_list") (Id "int") (Num 20)
         ).
  - reflexivity.
  - reflexivity.
Defined.

(** X12.  Each entry point takes the number of arguments of its last
    definition (three for [ak_alloc], four for [ak_resize], two for
    [ak_free]); with any other number the use is refused.  The
    four-argument [ak_alloc] and the five-argument [ak_resize] of the
    first definitions are not available. *)
Theorem entry_point_arity name arity args :
  In (name, arity) [("ak_alloc", 3%nat); ("ak_resize", 4%nat);
                    ("ak_free", 2%nat)] ->
  List.length args <> arity ->
  preprocess (Call (Id name) args) = None.
Proof.
  intros Hin Hlen. unfold preprocess.
  destruct Hin as [E | [E | [E | []]]]; inversion E; subst name arity;
    eapply expand_wrong_arity; try reflexivity; simpl; congruence.
Qed.

Lemma entry_point_arity_witness :
  preprocess (Call (Id "ak_alloc")
                [Id "my_allocator"; Num 4; Num 4; Num 10]) = None.
Proof.
  apply (entry_point_arity "ak_alloc" 3%nat
           [Id "my_allocator"; Num 4; Num 4; Num 10]).
  - left. reflexivity.
  - simpl. discriminate.
Defined.

End InterfaceExtra.

(** * Properties of the inclusion of allockit_page.h *)

Module InclusionFacts.
Import Interface Inclusion.
Local Open Scope string_scope.

Lemma lookup_undef_other {x y : string} (m : macros) :
  String.eqb y x = false -> lookup y (undef x m) = lookup y m.
Proof.
  intros Hne. induction m as [| [z v] m IH]; [reflexivity |].
  cbn [undef]. destruct (String.eqb_spec x z) as [-> | Hxz]; cbn [lookup].
  - rewrite Hne. exact IH.
  - rewrite IH. reflexivity.
Qed.

Lemma is_defined_undef_other {x y : string} (m : macros) :
  String.eqb y x = false -> is_defined (undef x m) y = is_defined m y.
Proof. intros Hne. unfold is_defined. rewrite lookup_undef_other; auto. Qed.

Lemma if_value_undef_other {x y : string} (m : macros) :
  String.eqb y x = false -> if_value (undef x m) y = if_value m y.
Proof. intros Hne. unfold if_value. rewrite lookup_undef_other; auto. Qed.

Lemma is_defined_cons_other {x y : string} v (m : macros) :
  String.eqb y x = false -> is_defined ((x, v) :: m) y = is_defined m y.
Proof. intros Hne. unfold is_defined. cbn [lookup]. rewrite Hne. reflexivity. Qed.

Lemma if_value_cons_other {x y : string} v (m : macros) :
  String.eqb y x = false -> if_value ((x, v) :: m) y = if_value m y.
Proof. intros Hne. unfold if_value. cbn [lookup]. rewrite Hne. reflexivity. Qed.

Lemma is_defined_cons_same x v (m : macros) : is_defined ((x, v) :: m) x = true.
Proof. unfold is_defined. cbn [lookup]. rewrite String.eqb_refl. reflexivity. Qed.

(** A definition never makes another macro undefined. *)
Lemma is_defined_cons x v (m : macros) y :
  is_defined m y = true -> is_defined ((x, v) :: m) y = true.
Proof.
  unfold is_defined. cbn [lookup]. destruct (String.eqb y x); auto.
Qed.

Ltac norm_defined :=
  unfold define;
  repeat first
    [ rewrite is_defined_cons_same
    | rewrite is_defined_cons_other by reflexivity
    | rewrite is_defined_undef_other by reflexivity
    | rewrite if_value_cons_other by reflexivity
    | rewrite if_value_undef_other by reflexivity ].

(** The selection of the platform only adds the macro of the platform. *)
Lemma select_platform_defines m m' :
  select_platform m = Some m' ->
  m' = define "ALLOCKIT_PAGE_PLATFORM_WINDOWS" m
  \/ m' = define "ALLOCKIT_PAGE_PLATFORM_LINUX" m.
Proof.
  unfold select_platform.
  destruct (is_defined m "WIN32" || is_defined m "_WIN32"
            || is_defined m "__WIN32__" || is_defined m "__NT__").
  - intros [= <-]. left. reflexivity.
  - destruct (if_value m "__APPLE__") as [apple |]; [| discriminate].
    destruct (negb (Z.eqb apple 0)); [discriminate |].
    destruct (if_value m "__linux") as [linux |]; [| discriminate].
    destruct (negb (Z.eqb linux 0)); [| discriminate].
    intros [= <-]. right. reflexivity.
Qed.

(** What one inclusion emits is paid for by the guards: declarations
    only if [ALLOCKIT_PAGE_H_DEFS] was not defined, and it is defined
    afterwards; the implementation only if [ALLOCKIT_PAGE_H_IMPL] was not
    defined, and it is defined afterwards. *)
Lemma include_budget m m' out :
  include_allockit_page_h m = Some (m', out) ->
  (List.length (filter is_declarations out)
   + (if is_defined m' "ALLOCKIT_PAGE_H_DEFS" then 0 else 1)
   <= if is_defined m "ALLOCKIT_PAGE_H_DEFS" then 0 else 1)%nat
  /\ (List.length (filter is_implementation out)
      + (if is_defined m' "ALLOCKIT_PAGE_H_IMPL" then 0 else 1)
      <= if is_defined m "ALLOCKIT_PAGE_H_IMPL" then 0 else 1)%nat.
Proof.
  unfold include_allockit_page_h.
  destruct (is_defined m "ALLOCKIT_PAGE_STATIC") eqn:Es; cbv zeta;
    norm_defined;
    destruct (is_defined m "ALLOCKIT_PAGE_H_DEFS") eqn:Ed;
    cbv beta iota zeta; norm_defined; rewrite ?Ed;
    destruct (is_defined m "ALLOCKIT_PAGE_H_IMPL") eqn:Eh;
    destruct (is_defined m "ALLOCKIT_PAGE_IMPL") eqn:Ei;
    cbn [andb negb];
    try (intros [= <- <-]; norm_defined;
         rewrite ?Ed, ?Eh; cbn; lia);
    (destruct (select_platform _) as [m4 |] eqn:Esel; [| discriminate];
     apply select_platform_defines in Esel;
     destruct (body_platform m4); [| discriminate];
     intros [= <- <-];
     destruct Esel as [-> | ->]; norm_defined; rewrite ?Ed; cbn; lia).
Qed.

(** X13.  In a translation unit made of inclusions of the header and
    of macro definitions, in any number and order, the declarations are
    emitted at most once and the function definitions at most once; not
    at all when the guard ([ALLOCKIT_PAGE_H_DEFS], [ALLOCKIT_PAGE_H_IMPL])
    was defined from the start. *)
Theorem emitted_at_most_once ds :
  forall m m' out,
    translate m ds = Some (m', out) ->
    (List.length (filter is_declarations out)
     <= if is_defined m "ALLOCKIT_PAGE_H_DEFS" then 0 else 1)%nat
    /\ (List.length (filter is_implementation out)
        <= if is_defined m "ALLOCKIT_PAGE_H_IMPL" then 0 else 1)%nat.
Proof.
  induction ds as [| d ds IH]; intros m m' out.
  - intros [= <- <-]. cbn. split; lia.
  - destruct d as [x v |]; cbn [translate].
    + intros H. apply IH in H. destruct H as [Hd Hi].
      pose proof (is_defined_cons x v m "ALLOCKIT_PAGE_H_DEFS") as Md.
      pose proof (is_defined_cons x v m "ALLOCKIT_PAGE_H_IMPL") as Mi.
      split.
      * destruct (is_defined m "ALLOCKIT_PAGE_H_DEFS");
          [rewrite Md in Hd by reflexivity; exact Hd |].
        destruct (is_defined _ "ALLOCKIT_PAGE_H_DEFS"); lia.
      * destruct (is_defined m "ALLOCKIT_PAGE_H_IMPL");
          [rewrite Mi in Hi by reflexivity; exact Hi |].
        destruct (is_defined _ "ALLOCKIT_PAGE_H_IMPL"); lia.
    + destruct (include_allockit_page_h m) as [[m1 out1] |] eqn:E1;
        [| discriminate].
      destruct (translate m1 ds) as [[m2 out2] |] eqn:E2; [| discriminate].
      intros [= <- <-].
      apply include_budget in E1. apply IH in E2.
      rewrite !filter_app, !length_app.
      destruct E1 as [Bd Bi], E2 as [Hd Hi].
      destruct (is_defined m1 "ALLOCKIT_PAGE_H_DEFS"),
               (is_defined m1 "ALLOCKIT_PAGE_H_IMPL"); split; lia.
Qed.

Lemma emitted_at_most_once_witness :
  (List.length (filter is_declarations
     [Declarations AKDEF_extern;
      Implementation ALLOCKIT_PAGE_PLATFORM_LINUX])
   <= if is_defined linux_gcc "ALLOCKIT_PAGE_H_DEFS" then 0 else 1)%nat
  /\ (List.length (filter is_implementation
        [Declarations AKDEF_extern;
         Implementation ALLOCKIT_PAGE_PLATFORM_LINUX])
      <= if is_defined linux_gcc "ALLOCKIT_PAGE_H_IMPL" then 0 else 1)%nat.
Proof.
  apply (emitted_at_most_once
           [Include; UserDefine "ALLOCKIT_PAGE_STATIC" None; Include; Include]
           linux_gcc
           [("ALLOCKIT_PAGE_IMPL", None);
            ("ALLOCKIT_PAGE_PLATFORM_LINUX", None);
            ("ALLOCKIT_PAGE_H_IMPL", None); ("ALLOCKIT_PAGE_IMPL", None);
            ("ALLOCKIT_PAGE_STATIC", None); ("ALLOCKIT_PAGE_H_DEFS", None);
            ("__linux", Some 1); ("__linux__", Some 1)]).
  reflexivity.
Defined.



(** X15.  The first inclusion that asks for the implementation
    ([ALLOCKIT_PAGE_IMPL], or [ALLOCKIT_PAGE_STATIC], which implies it)
    on a platform the compiler targets emits the declarations, static
    exactly when [ALLOCKIT_PAGE_STATIC] is defined, followed by the
    function definitions for that platform, and sets both guards.
    A Windows macro decides for Windows whatever [__APPLE__] and
    [__linux] are. *)
Theorem first_inclusion_with_implementation m p :
  targets m p ->
  is_defined m "ALLOCKIT_PAGE_H_DEFS" = false ->
  is_defined m "ALLOCKIT_PAGE_H_IMPL" = false ->
  is_defined m "ALLOCKIT_PAGE_STATIC" || is_defined m "ALLOCKIT_PAGE_IMPL"
  = true ->
  exists m',
    include_allockit_page_h m
    = Some (m', [Declarations
                   (if is_defined m "ALLOCKIT_PAGE_STATIC"
                    then AKDEF_static else AKDEF_extern);
                 Implementation p])
    /\ is_defined m' "ALLOCKIT_PAGE_H_DEFS" = true
    /\ is_defined m' "ALLOCKIT_PAGE_H_IMPL" = true.
Proof.
  intros Ht Hd Hh Hreq.
  unfold include_allockit_page_h, select_platform, body_platform.
  destruct (is_defined m "ALLOCKIT_PAGE_STATIC") eqn:Es; cbv zeta;
    norm_defined; rewrite ?Hd; cbv beta iota zeta; norm_defined;
    simpl in Hreq; rewrite ?Hreq, ?Hh; cbn [andb negb];
    (destruct p; cbn [targets] in Ht; unfold announces_windows in Ht;
     [ rewrite Ht; norm_defined
     | destruct Ht as (Hw & Ha & (v & Hv & Hnz) & Hu);
       rewrite Hw, Ha, Hv; cbn [Z.eqb negb];
       apply Z.eqb_neq in Hnz; rewrite Hnz; cbn [negb];
       norm_defined; rewrite Hu ]);
    eexists; (split; [reflexivity |]); norm_defined; split; reflexivity.
Qed.

Lemma first_inclusion_with_implementation_witness :
  exists m',
    include_allockit_page_h (("ALLOCKIT_PAGE_STATIC", None) :: linux_gcc)
    = Some (m', [Declarations
                   (if is_defined (("ALLOCKIT_PAGE_STATIC", None) :: linux_gcc)
                         "ALLOCKIT_PAGE_STATIC"
                    then AKDEF_static else AKDEF_extern);
                 Implementation ALLOCKIT_PAGE_PLATFORM_LINUX])
    /\ is_defined m' "ALLOCKIT_PAGE_H_DEFS" = true
    /\ is_defined m' "ALLOCKIT_PAGE_H_IMPL" = true.
Proof.
  apply (first_inclusion_with_implementation
           (("ALLOCKIT_PAGE_STATIC", None) :: linux_gcc)
           ALLOCKIT_PAGE_PLATFORM_LINUX).
  - repeat split; try reflexivity. exists 1%Z. split; [reflexivity | discriminate].
  - reflexivity.
  - reflexivity.
  - reflexivity.
Defined.

End InclusionFacts.
